(** * A shallow embedding of [api/index.py]: the Gemini credential-failover proxy

    The handler [proxy_to_gemini] of [api/index.py] is embedded as a function
    of the inbound request, the process environment, the outcome of
    [random.shuffle] and the sequence of upstream outcomes.  Python objects
    that the handler mutates (the Starlette request's body cache, the local
    variables that survive from one loop iteration to the next, the outbound
    [headers] dict) live in an explicit machine state that is threaded through
    a small monad with early [return] and exceptions.

    Conventions.
    - A Python [str] or [bytes] is a [string].  Header names and values and
      the credential lists are text of the Latin-1 range, one character per
      byte, as Starlette decodes them; literals and bodies are their UTF-8
      bytes, so that [.encode('utf-8')] is the identity.
    - A Python [dict] with [str] keys is an association list without repeated
      keys, in insertion order; keys are compared exactly, as Python does.
    - [print] calls have no influence on control flow and are left out.
    - What the libraries do after the handler has handed something over is
      not followed: what httpx adds to the headers it is given, and what
      Starlette reads from a streaming reply's iterator. *)

From Stdlib Require Import List String Ascii ZArith Bool Lia PeanoNat.
Import ListNotations.
Local Open Scope string_scope.
Local Open Scope Z_scope.

(** ** Python string operations *)

Module PyStr.

(** [str.isspace] on one character of the Latin-1 range: TAB..CR, FS..US,
    SPACE, NEL and NBSP. *)
Definition isspace (c : ascii) : bool :=
  let n := nat_of_ascii c in
  ((9 <=? n)%nat && (n <=? 13)%nat) || ((28 <=? n)%nat && (n <=? 32)%nat)
  || (n =? 133)%nat || (n =? 160)%nat.

(** [s.lstrip()] *)
Fixpoint lstrip (s : string) : string :=
  match s with
  | EmptyString => EmptyString
  | String c s' => if isspace c then lstrip s' else s
  end.

(** [s.rstrip()] *)
Fixpoint rstrip (s : string) : string :=
  match s with
  | EmptyString => EmptyString
  | String c s' =>
      match rstrip s' with
      | EmptyString => if isspace c then EmptyString else String c EmptyString
      | t => String c t
      end
  end.

(** [s.strip()] *)
Definition strip (s : string) : string := rstrip (lstrip s).

(** [s.split(sep)] for a one-character separator: never returns the empty
    list, [''.split(',') == ['']]. *)
Fixpoint split (sep : ascii) (s : string) : list string :=
  match s with
  | EmptyString => [EmptyString]
  | String c s' =>
      if Ascii.eqb c sep then EmptyString :: split sep s'
      else match split sep s' with
           | [] => [String c EmptyString]
           | w :: ws => String c w :: ws
           end
  end.

(** Lower-casing of one character.  Only ASCII letters are mapped.  Python
    also maps non-ASCII letters, but never to an ASCII letter that occurs in
    a name this program compares against, so every membership test below
    has the same answer. *)
Definition lower_char (c : ascii) : ascii :=
  let n := nat_of_ascii c in
  if ((65 <=? n)%nat && (n <=? 90)%nat)%bool then ascii_of_nat (n + 32) else c.

(** [s.lower()] *)
Fixpoint lower (s : string) : string :=
  match s with
  | EmptyString => EmptyString
  | String c s' => String (lower_char c) (lower s')
  end.

(** [s.startswith(p)] *)
Fixpoint startswith (p s : string) : bool :=
  match p, s with
  | EmptyString, _ => true
  | String a p', String b s' => Ascii.eqb a b && startswith p' s'
  | String _ _, EmptyString => false
  end.

(** [p in s] *)
Fixpoint contains (p s : string) : bool :=
  startswith p s ||
  match s with
  | EmptyString => false
  | String _ s' => contains p s'
  end.

(** Truthiness of a [str]. *)
Definition truthy (s : string) : bool :=
  match s with EmptyString => false | String _ _ => true end.

(** [s in l] for a list of strings. *)
Definition mem (s : string) (l : list string) : bool :=
  existsb (String.eqb s) l.

(** The double-quote character, which JSON bodies are built with. *)
Definition dq : string := String (ascii_of_nat 34) EmptyString.

End PyStr.

(** ** Python dicts with string keys *)

Module PyDict.

Definition dict : Type := list (string * string).

(** [d[k] = v]: overwrite in place, or append a new key at the end. *)
Fixpoint set (k v : string) (d : dict) : dict :=
  match d with
  | [] => [(k, v)]
  | (k', v') :: d' =>
      if String.eqb k k' then (k, v) :: d' else (k', v') :: set k v d'
  end.

(** [d.get(k)] *)
Fixpoint get (k : string) (d : dict) : option string :=
  match d with
  | [] => None
  | (k', v') :: d' => if String.eqb k k' then Some v' else get k d'
  end.

(** [dict(items)] and [{k: v for k, v in items}]: later pairs overwrite. *)
Definition of_items (items : list (string * string)) : dict :=
  fold_left (fun d kv => set (fst kv) (snd kv) d) items [].

(** All values that the dict stores under a name, the name being compared
    as HTTP does, without regard to case.  This reads the dict that the
    handler builds and hands to httpx; the headers that httpx adds of its
    own when it sends the request ([Host] and its defaults) are no part of
    it. *)
Definition http_values (name : string) (d : dict) : list string :=
  map snd
    (filter (fun kv => String.eqb (PyStr.lower (fst kv)) (PyStr.lower name)) d).

End PyDict.

Import PyDict.

Example split_sample :
  PyStr.split "," "a, b,,c " = ["a"; " b"; ""; "c "].
Proof. reflexivity. Qed.

Example strip_sample : PyStr.strip "  k 1  " = "k 1".
Proof. reflexivity. Qed.

(** ** HTTP data *)

(** The inbound [starlette.requests.Request].  [req_headers] is what
    [request.headers.items()] yields: the raw header list in arrival order,
    repeated names included.  [query_params] is what [str(request.query_params)]
    yields in the f-string of line 39: Starlette's own serialisation of the
    parsed query, which need not be the query string as the caller wrote it.
    [source] is the byte content that the receive channel delivers when it is
    drained. *)
Record Request : Type := {
  method : string;
  path : string;
  query_params : string;
  req_headers : list (string * string);
  source : string
}.

(** An [httpx.Response].  [resp_headers] is what [response.headers.items()]
    yields (and what [dict(response.headers)] is built from): httpx presents
    one pair per lower-cased name.  [chunks] is the decoded body as it
    arrives; [content] and [aread()] are its concatenation, read while the
    client is open. *)
Record HttpxResponse : Type := {
  status_code : Z;
  resp_headers : list (string * string);
  chunks : list string
}.

Definition content (r : HttpxResponse) : string := String.concat "" (chunks r).
Definition aread (r : HttpxResponse) : string := content r.

(** The iterator [r.aiter_bytes()], not yet read.  The handler returns it from
    inside [async with httpx.AsyncClient()] (lines 58 and 79), so the client
    is closed before Starlette reads it; what it then yields is not
    modelled, only which response it belongs to. *)
Inductive ByteIterator : Type :=
| aiter_bytes (r : HttpxResponse).

(** [response.headers.get(name)] *)
Definition httpx_get (name : string) (r : HttpxResponse) : option string :=
  PyDict.get (PyStr.lower name) (of_items (resp_headers r)).

(** What one upstream call meets: [httpx.RequestError] with its description
    (connect, DNS, timeout or transport failure), a response, or any other
    exception raised while the call is built or sent, given by its class
    name: [RuntimeError] when [request.stream()] is iterated again after an
    earlier attempt has read it, [UnicodeEncodeError] for a header value that
    httpx cannot encode, and the like.

    Which sequences of outcomes can occur is not modelled (on a streaming
    path, once an attempt has read the request stream, a later attempt can
    only fail before it sends or break); the properties below hold for every
    sequence, hence for those that occur. *)
Inductive Outcome : Type :=
| NetworkFailure (description : string)
| Responds (r : HttpxResponse)
| Breaks (exception : string).

(** The body handed to httpx: bytes already in memory, or the lazy
    [request.stream()] iterator. *)
Inductive Body : Type :=
| Buffered (bytes : string)
| Lazy.

(** One upstream call as issued: httpx copies the header dict when it builds
    the request, so [call_headers] is the dict as it was at that moment. *)
Record Call : Type := {
  call_method : string;
  call_url : string;
  call_headers : dict;
  call_body : Body
}.

(** What the handler hands back to FastAPI: the arguments of the
    [Response(...)] or [StreamingResponse(...)] it constructs.  [headers] is
    [[]] where the source passes none. *)
Inductive Reply : Type :=
| Response (body : option string) (status : Z) (headers : dict)
    (media_type : option string)
| StreamingResponse (body : ByteIterator) (status : Z) (headers : dict)
    (media_type : option string).


Definition reply_headers (r : Reply) : dict :=
  match r with
  | Response _ _ h _ => h
  | StreamingResponse _ _ h _ => h
  end.

(** Python exceptions that occur in the handler: [httpx.RequestError], the
    [UnboundLocalError] of reading an unbound local, and any other exception
    that a call raises, by its class name. *)
Inductive Exn : Type :=
| RequestError (description : string)
| UnboundLocalError (name : string)
| OtherException (class : string).

(** ** Machine state *)

(** What outlives the handler's local frame: the request's body cache
    ([Request._body], absent until [body()] has run), how many times
    [body()] drained the receive channel, and the upstream calls made so far
    (each invocation of [client.request] or [client.send], whatever came of
    it).  On a streaming path it is httpx that drains the channel, through
    the [request.stream()] iterator it is handed; [source_reads] does not
    follow that. *)
Record World : Type := {
  body_cache : option string;
  source_reads : nat;
  calls : list Call
}.

(** The handler's locals that are read across statements or iterations.
    [response] is [None] while the name is unbound. *)
Record Locals : Type := {
  response : option HttpxResponse;
  last_error : option string;
  last_status : Z;
  headers : dict
}.

Definition Machine : Type := (Locals * World)%type.

Definition fresh_world : World :=
  {| body_cache := None; source_reads := 0; calls := [] |}.

(** ** The control monad: state, early [return], exceptions *)

Inductive Flow (A : Type) : Type :=
| Normal (a : A)
| Return (r : Reply)
| Raise (e : Exn).

Arguments Normal {A} a.
Arguments Return {A} r.
Arguments Raise {A} e.

Definition Py (A : Type) : Type := Machine -> Flow A * Machine.

Definition ret {A} (a : A) : Py A := fun m => (Normal a, m).

Definition bind {A B} (c : Py A) (k : A -> Py B) : Py B :=
  fun m =>
    match c m with
    | (Normal a, m') => k a m'
    | (Return r, m') => (Return r, m')
    | (Raise e, m') => (Raise e, m')
    end.

Definition py_return {A} (r : Reply) : Py A := fun m => (Return r, m).
Definition py_raise {A} (e : Exn) : Py A := fun m => (Raise e, m).

(** [try: c  except httpx.RequestError as e: h e] *)
Definition try_except_RequestError {A} (c : Py A) (h : string -> Py A) : Py A :=
  fun m =>
    match c m with
    | (Raise (RequestError d), m') => h d m'
    | other => other
    end.

Declare Scope py_scope.
Delimit Scope py_scope with py.
Notation "x <- c1 ;; c2" := (bind c1 (fun x => c2))
  (at level 61, c1 at next level, right associativity) : py_scope.
Notation "c1 ;; c2" := (bind c1 (fun _ => c2))
  (at level 61, right associativity) : py_scope.

Local Open Scope py_scope.

(** ** Constants of the module *)

Definition GEMINI_API_BASE_URL : string :=
  "https://generativelanguage.googleapis.com".

Definition excluded_headers : list string :=
  ["host"; "x-real-ip"; "x-forwarded-for"; "x-forwarded-proto";
   "x-vercel-id"; "x-vercel-deployment-url"; "x-vercel-proxied-for";
   "x-goog-api-key"].

Definition USER_AGENT : string :=
  "Mozilla/5.0 (Windows NT 10.0; Win64; x64) AppleWebKit/537.36 (KHTML, like Gecko) CherryStudio/1.5.1 Chrome/134.0.6998.205 Electron/35.6.0 Safari/537.36".

(** The body of the 400 reply. *)
Definition missing_keys_body : string :=
  "{" ++ PyStr.dq ++ "error" ++ PyStr.dq ++ ": " ++ PyStr.dq
  ++ "未提供 API 密钥。请在 'x-goog-api-key' 请求头或 GOOGLE_API_KEYS 环境变量中设置。"
  ++ PyStr.dq ++ "}".

(** The body recorded for a network failure with description [e]. *)
Definition fetch_error_body (e : string) : string :=
  "{" ++ PyStr.dq ++ "error" ++ PyStr.dq ++ ": " ++ PyStr.dq
  ++ "Proxy fetch error" ++ PyStr.dq ++ ", " ++ PyStr.dq ++ "details"
  ++ PyStr.dq ++ ": " ++ PyStr.dq ++ ("无法连接到目标服务器: " ++ e)
  ++ PyStr.dq ++ "}".

(** ** Step 1: the credential list *)

(** [[key.strip() for key in value.split(',') if key.strip()]] *)
Definition parse_keys (value : string) : list string :=
  map PyStr.strip
    (filter (fun key => PyStr.truthy (PyStr.strip key)) (PyStr.split "," value)).

(** Starlette's [Headers.get(name, default)]: the value of the first raw
    header whose name equals the lower-cased [name]. *)
Definition starlette_get (name default : string) (hs : list (string * string))
  : string :=
  match find (fun kv => String.eqb (fst kv) (PyStr.lower name)) hs with
  | Some kv => snd kv
  | None => default
  end.

(** [os.environ.get(name, default)] *)
Definition environ_get (name default : string) (environ : dict) : string :=
  match PyDict.get name environ with
  | Some v => v
  | None => default
  end.

Definition header_keys (request : Request) : list string :=
  parse_keys (starlette_get "x-goog-api-key" "" (req_headers request)).

Definition env_keys (environ : dict) : list string :=
  parse_keys (environ_get "GOOGLE_API_KEYS" "" environ).

(** Lines 23 to 29: the header first, the environment when the header gave
    nothing. *)
Definition api_keys (request : Request) (environ : dict) : list string :=
  match header_keys request with
  | [] => env_keys environ
  | ks => ks
  end.

(** ** Steps 2 and 3: target URL and outbound headers *)

Definition target_url (request : Request) : string :=
  GEMINI_API_BASE_URL ++ "/" ++ path request ++ "?" ++ query_params request.

(** Line 49: the dict comprehension over [request.headers.items()]. *)
Definition filter_headers (hs : list (string * string)) : dict :=
  of_items
    (filter (fun kv => negb (PyStr.mem (PyStr.lower (fst kv)) excluded_headers)) hs).

(** Lines 49 to 52. *)
Definition sanitize_headers (hs : list (string * string)) : dict :=
  PyDict.set "User-Agent" USER_AGENT (filter_headers hs).

(** Line 65 *)
Definition is_streaming (request : Request) : bool :=
  PyStr.contains "stream" (PyStr.lower (path request)).

(** Line 91: the dict comprehension over [response.headers.items()]. *)
Definition response_headers (r : HttpxResponse) : dict :=
  of_items
    (filter
       (fun kv =>
          negb (PyStr.mem (PyStr.lower (fst kv))
                  ["content-encoding"; "transfer-encoding"]))
       (resp_headers r)).

(** ** Step 4: the failover loop *)

(** Updates of single locals and of the world. *)
Definition with_headers (h : dict) (l : Locals) : Locals :=
  {| response := response l; last_error := last_error l;
     last_status := last_status l; headers := h |}.

Definition with_response (resp : HttpxResponse) (l : Locals) : Locals :=
  {| response := Some resp; last_error := last_error l;
     last_status := last_status l; headers := headers l |}.

Definition with_failure (e : string) (s : Z) (l : Locals) : Locals :=
  {| response := response l; last_error := Some e;
     last_status := s; headers := headers l |}.

(** The locals once the credential of an iteration is injected (line 61). *)
Definition keyed (key : string) (l : Locals) : Locals :=
  with_headers (PyDict.set "x-goog-api-key" key (headers l)) l.

Definition issued (c : Call) (w : World) : World :=
  {| body_cache := body_cache w; source_reads := source_reads w;
     calls := calls w ++ [c] |}.

Section Failover.

Variable request : Request.

(** The [n]-th upstream call of this invocation (counted from 0) has the
    outcome [upstream n]. *)
Variable upstream : nat -> Outcome.

(** *** Primitive statements *)

(** [headers[k] = v] *)
Definition set_header (k v : string) : Py unit :=
  fun '(l, w) => (Normal tt, (with_headers (PyDict.set k v (headers l)) l, w)).

(** [response = resp] *)
Definition bind_response (resp : HttpxResponse) : Py unit :=
  fun '(l, w) => (Normal tt, (with_response resp l, w)).

(** Reading the local [response]: Python raises [UnboundLocalError] when
    no assignment to it has been executed yet. *)
Definition load_response : Py HttpxResponse :=
  fun '(l, w) =>
    match response l with
    | Some resp => (Normal resp, (l, w))
    | None => (Raise (UnboundLocalError "response"), (l, w))
    end.

(** [last_error = e; last_status = s] *)
Definition record_failure (e : string) (s : Z) : Py unit :=
  fun '(l, w) => (Normal tt, (with_failure e s l, w)).

(** Starlette's [await request.body()]: the receive channel is drained on
    the first call only, the bytes are kept in [Request._body] and every
    later call returns them from there. *)
Definition body_of (w : World) : string :=
  match body_cache w with
  | Some b => b
  | None => source request
  end.

Definition drained (w : World) : World :=
  match body_cache w with
  | Some _ => w
  | None =>
      {| body_cache := Some (source request);
         source_reads := S (source_reads w);
         calls := calls w |}
  end.

Definition request_body : Py string :=
  fun '(l, w) => (Normal (body_of w), (l, drained w)).

(** One upstream call with the current [headers] and the given body:
    [client.request(...)] and [client.send(req, stream=True)] alike.  The
    call is entered in [calls] whatever it meets; a call that breaks raises
    an exception that the [except] clause of line 106 does not catch. *)
Definition call_of (l : Locals) (b : Body) : Call :=
  {| call_method := method request;
     call_url := target_url request;
     call_headers := headers l;
     call_body := b |}.

Definition client_call (b : Body) : Py HttpxResponse :=
  fun '(l, w) =>
    match upstream (List.length (calls w)) with
    | NetworkFailure d => (Raise (RequestError d), (l, issued (call_of l b) w))
    | Responds r => (Normal r, (l, issued (call_of l b) w))
    | Breaks x => (Raise (OtherException x), (l, issued (call_of l b) w))
    end.

(** *** The loop body, lines 60 to 111

    [Normal tt] is [continue]. *)
Definition attempt (key : string) : Py unit :=
  set_header "x-goog-api-key" key ;;
  try_except_RequestError
    ((if is_streaming request then
        r <- client_call Lazy ;;
        if status_code r =? 200 then
          py_return
            (StreamingResponse (aiter_bytes r) (status_code r)
               (of_items (resp_headers r)) (httpx_get "content-type" r))
        else ret tt
      else
        b <- request_body ;;
        resp <- client_call (Buffered b) ;;
        bind_response resp ;;
        if status_code resp <? 400 then
          py_return
            (Response (Some (content resp)) (status_code resp)
               (response_headers resp) (httpx_get "content-type" resp))
        else ret tt) ;;
     resp <- load_response ;;
     if (400 <=? status_code resp) && (status_code resp <? 500) then
       record_failure (aread resp) (status_code resp)
     else
       py_return
         (Response (Some (aread resp)) (status_code resp)
            (of_items (resp_headers resp)) None))
    (fun e => record_failure (fetch_error_body e) 502).

(** [for key in api_keys: ...] *)
Fixpoint for_keys (keys : list string) : Py unit :=
  match keys with
  | [] => ret tt
  | key :: rest => attempt key ;; for_keys rest
  end.

End Failover.

(** Lines 49 to 56: the locals as the loop finds them. *)
Definition initial_locals (request : Request) : Locals :=
  {| response := None; last_error := None; last_status := 500;
     headers := sanitize_headers (req_headers request) |}.

(** How an invocation of the handler ends: with a reply for FastAPI, or with
    an exception that leaves the handler. *)
Inductive Completion : Type :=
| Replied (r : Reply)
| Escaped (e : Exn).

(** Lines 54 to 115: the loop from the initial locals, and the reply of
    lines 113 to 115 when it falls through. *)
Definition failover (request : Request) (upstream : nat -> Outcome)
    (keys : list string) (w : World) : Completion * World :=
  match for_keys request upstream keys (initial_locals request, w) with
  | (Normal _, (l, w')) =>
      (Replied
         (Response (last_error l) (last_status l) []
            (Some "application/json")), w')
  | (Return r, (_, w')) => (Replied r, w')
  | (Raise e, (_, w')) => (Escaped e, w')
  end.

(** ** The handler

    [shuffle] is the permutation that [random.shuffle] applies in this
    invocation.  The result is how the handler ends and the world it leaves
    behind. *)
Definition proxy_to_gemini (request : Request) (environ : dict)
    (shuffle : list string -> list string) (upstream : nat -> Outcome)
  : Completion * World :=
  match api_keys request environ with
  | [] =>
      (Replied
         (Response (Some missing_keys_body) 400 [] (Some "application/json")),
       fresh_world)
  | ks => failover request upstream (shuffle ks) fresh_world
  end.

(** What an attempt with outcome [o] leaves in [last_status] and [last_error]
    when the loop goes on after it (lines 97, 98 and 109, 110).  A call that
    breaks records nothing and the loop does not go on after it; the initial
    values stand for it. *)
Definition recorded_failure (o : Outcome) : Z * string :=
  match o with
  | NetworkFailure d => (502, fetch_error_body d)
  | Responds r => (status_code r, aread r)
  | Breaks _ => (500, EmptyString)
  end.

(** The outcomes after which the loop goes on to the next credential: a
    network failure, and a 4xx response to a buffered attempt. *)
Definition retried (streaming : bool) (o : Outcome) : bool :=
  match o with
  | NetworkFailure _ => true
  | Responds r =>
      negb streaming && (400 <=? status_code r) && (status_code r <? 500)
  | Breaks _ => false
  end.

(** On a streaming path no statement binds the local [response]. *)
Definition coherent (request : Request) (l : Locals) : Prop :=
  is_streaming request = true -> response l = None.

(** The rest of a JSON string literal that needs no escapes, followed by the
    closing brace of the object. *)
Fixpoint json_string_tail (s : string) : bool :=
  match s with
  | EmptyString => false
  | String c s' =>
      if Ascii.eqb c (ascii_of_nat 34) then String.eqb s' "}"
      else if Ascii.eqb c (ascii_of_nat 92) || (nat_of_ascii c <? 32)%nat then false
      else json_string_tail s'
  end.

(** [s] is a JSON object with the single member [error], a string. *)
Fixpoint json_error_object_from (prefix s : string) : bool :=
  match prefix, s with
  | EmptyString, _ => json_string_tail s
  | String a p', String b s' => Ascii.eqb a b && json_error_object_from p' s'
  | String _ _, EmptyString => false
  end.

Definition json_error_object (s : string) : bool :=
  json_error_object_from
    ("{" ++ PyStr.dq ++ "error" ++ PyStr.dq ++ ": " ++ PyStr.dq) s.

(** The world before the body was asked for, and the world once a buffered
    attempt has run: the receive channel was drained once, its bytes are
    cached, and every call issued so far carried exactly those bytes. *)
Definition pristine (w : World) : Prop :=
  body_cache w = None /\ source_reads w = 0%nat /\ calls w = [].

Definition buffered_once (request : Request) (w : World) : Prop :=
  body_cache w = Some (source request) /\ source_reads w = 1%nat /\
  calls w <> [] /\
  Forall (fun c => call_body c = Buffered (source request)) (calls w).

(** The header dict of an upstream call: the sanitised headers of the
    request with one credential written into them. *)
Definition keyed_headers (request : Request) (c : Call) : Prop :=
  exists key,
    call_headers c =
      PyDict.set "x-goog-api-key" key (sanitize_headers (req_headers request)).

(** The local [headers] is the sanitised dict, possibly with the credential
    of an earlier iteration in it. *)
Definition sanitized (request : Request) (l : Locals) : Prop :=
  headers l = sanitize_headers (req_headers request) \/
  exists key,
    headers l =
      PyDict.set "x-goog-api-key" key (sanitize_headers (req_headers request)).

(** A string that is empty or begins with a character that is not
    white space, as [lstrip] returns it. *)
Definition no_leading_space (s : string) : Prop :=
  match s with
  | EmptyString => True
  | String c _ => PyStr.isspace c = false
  end.

(** [c in s] for one character. *)
Fixpoint has_char (c : ascii) (s : string) : bool :=
  match s with
  | EmptyString => false
  | String a s' => Ascii.eqb a c || has_char c s'
  end.

(** The credential that an upstream call carries: the value under the dict
    key that line 61 writes. *)
Definition call_key (c : Call) : option string :=
  PyDict.get "x-goog-api-key" (call_headers c).

(** The upstream call of an attempt with credential [key] and body [b]. *)
Definition attempt_call (request : Request) (key : string) (b : Body) : Call :=
  {| call_method := method request;
     call_url := target_url request;
     call_headers :=
       PyDict.set "x-goog-api-key" key (sanitize_headers (req_headers request));
     call_body := b |}.


(** ** Sample runs *)

Module Samples.

Definition ok (b : string) : HttpxResponse :=
  {| status_code := 200;
     resp_headers := [("content-type", "application/json")];
     chunks := [b] |}.

Definition failing (s : Z) (b : string) : HttpxResponse :=
  {| status_code := s;
     resp_headers := [("content-type", "application/json");
                      ("content-encoding", "gzip")];
     chunks := [b] |}.

(** A buffered request that carries two credentials. *)
Definition generate : Request :=
  {| method := "POST";
     path := "v1beta/models/gemini-pro:generateContent";
     query_params := "";
     req_headers := [("host", "proxy.example"); ("user-agent", "curl/8.0");
                     ("x-goog-api-key", "k1, k2");
                     ("content-type", "application/json")];
     source := "{}" |}.

(** The same request on a streaming path. *)
Definition stream_generate : Request :=
  {| method := "POST";
     path := "v1beta/models/gemini-pro:streamGenerateContent";
     query_params := "alt=sse";
     req_headers := [("host", "proxy.example"); ("user-agent", "curl/8.0");
                     ("x-goog-api-key", "k1, k2");
                     ("content-type", "application/json")];
     source := "{}" |}.

(** A request whose credential header holds separators and blanks only. *)
Definition anonymous : Request :=
  {| method := "GET";
     path := "v1beta/models";
     query_params := "pageSize=5";
     req_headers := [("host", "proxy.example"); ("x-goog-api-key", " , ,")];
     source := "" |}.

(** An informational response. *)
Definition informational : HttpxResponse :=
  {| status_code := 100;
     resp_headers := [("transfer-encoding", "chunked"); ("x-trace", "t1")];
     chunks := [] |}.

(** A streaming path written in capitals. *)
Definition shouting : Request :=
  {| method := "POST";
     path := "V1BETA/MODELS/GEMINI-PRO:STREAMGENERATECONTENT";
     query_params := "";
     req_headers := [("x-goog-api-key", "k1")];
     source := "{}" |}.

(** An environment that holds three credentials. *)
Definition three_keys : dict := [("GOOGLE_API_KEYS", "e1, e2 ,e3")].

Definition same (l : list string) : list string := l.

(** The upstream answers the calls with the listed outcomes, and with a
    network failure once the list is used up. *)
Definition script (os : list Outcome) (n : nat) : Outcome :=
  nth n os (NetworkFailure "timed out").

End Samples.

(** * Properties *)

Local Open Scope list_scope.

(** ** Dicts built from filtered items *)

Section DictFacts.

Lemma set_In (k v : string) (d : dict) (kv : string * string) :
  In kv (PyDict.set k v d) -> kv = (k, v) \/ In kv d.
Proof.
  induction d as [| [k' v'] d IH]; cbn.
  - intros [H | []]; auto.
  - destruct (String.eqb k k'); cbn.
    + intros [H | H]; auto.
    + intros [H | H]; auto. destruct (IH H); auto.
Qed.

Lemma get_set (k k' v : string) (d : dict) :
  PyDict.get k (PyDict.set k' v d) =
    if String.eqb k k' then Some v else PyDict.get k d.
Proof.
  induction d as [| [k2 v2] d IH]; cbn.
  - destruct (String.eqb k k'); reflexivity.
  - destruct (String.eqb k' k2) eqn:E2; cbn.
    + apply String.eqb_eq in E2. subst k2.
      destruct (String.eqb k k'); reflexivity.
    + rewrite IH. destruct (String.eqb k k') eqn:E1; [| reflexivity].
      apply String.eqb_eq in E1. subst k'. rewrite E2. reflexivity.
Qed.

(** Writing a key twice keeps the second value only. *)
Lemma set_set (k v1 v2 : string) (d : dict) :
  PyDict.set k v2 (PyDict.set k v1 d) = PyDict.set k v2 d.
Proof.
  induction d as [| [k' v'] d IH]; cbn.
  - rewrite String.eqb_refl. reflexivity.
  - destruct (String.eqb k k') eqn:E; cbn.
    + rewrite String.eqb_refl. reflexivity.
    + rewrite E, IH. reflexivity.
Qed.

Lemma fold_set_In (items : list (string * string)) (acc : dict)
    (kv : string * string) :
  In kv (fold_left (fun d x => PyDict.set (fst x) (snd x) d) items acc) ->
  In kv items \/ In kv acc.
Proof.
  revert acc. induction items as [| [k v] items IH]; intros acc H; cbn in *.
  - auto.
  - destruct (IH _ H) as [H1 | H1]; auto.
    destruct (set_In _ _ _ _ H1); auto.
Qed.

(** A dict holds no pair that was not among the items it was built from. *)
Lemma of_items_In (items : list (string * string)) (kv : string * string) :
  In kv (of_items items) -> In kv items.
Proof.
  intros H. destruct (fold_set_In _ _ _ H) as [H1 | []]. exact H1.
Qed.

Lemma fold_set_get (k : string) (items : list (string * string)) (acc : dict) :
  PyDict.get k (fold_left (fun d x => PyDict.set (fst x) (snd x) d) items acc) =
    match PyDict.get k (rev items) with
    | Some v => Some v
    | None => PyDict.get k acc
    end.
Proof.
  revert acc. induction items as [| [k' v'] items IH]; intros acc; cbn.
  - reflexivity.
  - rewrite IH, get_set.
    assert (Happ : forall l1 l2 : dict,
               PyDict.get k (l1 ++ l2) =
                 match PyDict.get k l1 with
                 | Some v => Some v
                 | None => PyDict.get k l2
                 end).
    { induction l1 as [| [a b] l1 IH1]; intros l2; cbn; [reflexivity |].
      destruct (String.eqb k a); [reflexivity | apply IH1]. }
    rewrite Happ. cbn.
    destruct (PyDict.get k (rev items)); [reflexivity |].
    destruct (String.eqb k k'); reflexivity.
Qed.

(** Looking a key up in a dict built from items finds the last item with
    that key. *)
Lemma get_of_items (k : string) (items : list (string * string)) :
  PyDict.get k (of_items items) = PyDict.get k (rev items).
Proof.
  unfold of_items. rewrite fold_set_get.
  destruct (PyDict.get k (rev items)); reflexivity.
Qed.

Lemma get_filter_keys (p : string -> bool) (k : string) (d : dict) :
  PyDict.get k (filter (fun kv => p (fst kv)) d) =
    if p k then PyDict.get k d else None.
Proof.
  induction d as [| [k' v'] d IH]; cbn.
  - destruct (p k); reflexivity.
  - destruct (p k') eqn:Ep; cbn.
    + destruct (String.eqb k k') eqn:E.
      * apply String.eqb_eq in E. subst k'. rewrite Ep. reflexivity.
      * exact IH.
    + destruct (String.eqb k k') eqn:E.
      * apply String.eqb_eq in E. subst k'. rewrite Ep in IH. rewrite Ep. exact IH.
      * exact IH.
Qed.

(** A dict comprehension with a condition on the key: the keys that pass
    keep the value they have without the condition, the others are absent. *)
Lemma get_of_filtered_items (p : string -> bool) (k : string)
    (items : list (string * string)) :
  PyDict.get k (of_items (filter (fun kv => p (fst kv)) items)) =
    if p k then PyDict.get k (of_items items) else None.
Proof.
  rewrite !get_of_items, <- filter_rev. apply get_filter_keys.
Qed.

(** No value is seen under a name that none of the keys spells. *)
Lemma http_values_none (name : string) (d : dict) :
  (forall kv, In kv d ->
     String.eqb (PyStr.lower (fst kv)) (PyStr.lower name) = false) ->
  http_values name d = [].
Proof.
  intros H. unfold http_values.
  induction d as [| kv d IH]; cbn; [reflexivity |].
  rewrite (H kv (or_introl eq_refl)). apply IH.
  intros kv' Hin. apply H. right. exact Hin.
Qed.

End DictFacts.

(** ** Substrings *)

Section Substrings.

Local Open Scope string_scope.

Lemma startswith_app (p s : string) : PyStr.startswith p (p ++ s) = true.
Proof.
  induction p as [| c p IH]; cbn; [reflexivity |].
  rewrite Ascii.eqb_refl. exact IH.
Qed.

Lemma startswith_inv (p s : string) :
  PyStr.startswith p s = true -> exists b, s = p ++ b.
Proof.
  revert s. induction p as [| c p IH]; intros s H.
  - exists s. reflexivity.
  - destruct s as [| a s]; cbn in H; [discriminate |].
    apply andb_true_iff in H. destruct H as [Hc Hp].
    apply Ascii.eqb_eq in Hc. subst a.
    destruct (IH s Hp) as [b ->]. exists b. reflexivity.
Qed.

(** [p in s] holds exactly when [s] is cut into a part before [p], [p] and a
    part after it. *)
Lemma contains_iff (p s : string) :
  PyStr.contains p s = true <-> exists a b, s = a ++ p ++ b.
Proof.
  split.
  - induction s as [| c s IH]; cbn; intros H.
    + apply orb_true_iff in H. destruct H as [H | H]; [| discriminate].
      apply startswith_inv in H. destruct H as [b Hb].
      exists "", b. exact Hb.
    + apply orb_true_iff in H. destruct H as [H | H].
      * apply startswith_inv in H. destruct H as [b Hb].
        exists "", b. exact Hb.
      * destruct (IH H) as (a & b & ->). exists (String c a), b. reflexivity.
  - intros (a & b & ->). induction a as [| c a IH].
    + cbn [append]. destruct (p ++ b) eqn:E; cbn; rewrite <- E;
        rewrite startswith_app; reflexivity.
    + cbn [append PyStr.contains]. rewrite IH. apply orb_true_r.
Qed.

Lemma lower_app (a b : string) :
  PyStr.lower (a ++ b) = PyStr.lower a ++ PyStr.lower b.
Proof.
  induction a as [| c a IH]; cbn; [reflexivity | rewrite IH; reflexivity].
Qed.

(** A cut of the lower-cased string is the lower-casing of a cut of the
    string. *)
Lemma lower_app_inv (s x y : string) :
  PyStr.lower s = x ++ y ->
  exists s1 s2, s = s1 ++ s2 /\ PyStr.lower s1 = x /\ PyStr.lower s2 = y.
Proof.
  revert s. induction x as [| c x IH]; intros s H.
  - exists "", s. repeat split. exact H.
  - destruct s as [| a s]; cbn in H; [discriminate |].
    inversion H as [[Hc Hs]].
    destruct (IH s Hs) as (s1 & s2 & -> & H1 & H2).
    exists (String a s1), s2. cbn. rewrite H1.
    repeat split. exact H2.
Qed.

End Substrings.

(** ** One attempt, case by case *)

(** Asking for the body does not touch the list of calls. *)
Lemma drained_calls (request : Request) (w : World) :
  calls (drained request w) = calls w.
Proof. unfold drained. destruct (body_cache w); reflexivity. Qed.

(** Expose the statements of the loop body. *)
Ltac open_attempt :=
  unfold attempt, bind, try_except_RequestError, set_header, request_body,
    client_call, bind_response, load_response, record_failure, py_return, ret.

Tactic Notation "open_attempt" "in" hyp(H) :=
  unfold attempt, bind, try_except_RequestError, set_header, request_body,
    client_call, bind_response, load_response, record_failure, py_return, ret
    in H.

Section AttemptFacts.

Variable request : Request.
Variable upstream : nat -> Outcome.

(** A buffered attempt in full. *)
Lemma attempt_buffered (key : string) (l : Locals) (w : World) :
  is_streaming request = false ->
  attempt request upstream key (l, w) =
    let l1 := keyed key l in
    let w1 := issued (call_of request l1 (Buffered (body_of request w)))
                (drained request w) in
    match upstream (List.length (calls w)) with
    | NetworkFailure d =>
        (Normal tt, (with_failure (fetch_error_body d) 502 l1, w1))
    | Responds r =>
        if status_code r <? 400 then
          (Return (Response (Some (content r)) (status_code r)
                     (response_headers r) (httpx_get "content-type" r)),
           (with_response r l1, w1))
        else if (400 <=? status_code r) && (status_code r <? 500) then
          (Normal tt,
           (with_failure (aread r) (status_code r) (with_response r l1), w1))
        else
          (Return (Response (Some (aread r)) (status_code r)
                     (of_items (resp_headers r)) None),
           (with_response r l1, w1))
    | Breaks x => (Raise (OtherException x), (l1, w1))
    end.
Proof.
  intros Hs.
  open_attempt. rewrite Hs. cbn. rewrite drained_calls.
  destruct (upstream (List.length (calls w))) as [d | r | x]; cbn;
    [reflexivity | | reflexivity].
  destruct (status_code r <? 400); cbn; [reflexivity |].
  destruct ((400 <=? status_code r) && (status_code r <? 500)); reflexivity.
Qed.

(** A streamed attempt while the local [response] is unbound. *)
Lemma attempt_streamed (key : string) (l : Locals) (w : World) :
  is_streaming request = true ->
  response l = None ->
  attempt request upstream key (l, w) =
    let l1 := keyed key l in
    let w1 := issued (call_of request l1 Lazy) w in
    match upstream (List.length (calls w)) with
    | NetworkFailure d =>
        (Normal tt, (with_failure (fetch_error_body d) 502 l1, w1))
    | Responds r =>
        if status_code r =? 200 then
          (Return (StreamingResponse (aiter_bytes r) (status_code r)
                     (of_items (resp_headers r)) (httpx_get "content-type" r)),
           (l1, w1))
        else (Raise (UnboundLocalError "response"), (l1, w1))
    | Breaks x => (Raise (OtherException x), (l1, w1))
    end.
Proof.
  intros Hs Hr.
  open_attempt. rewrite Hs. cbn.
  destruct (upstream (List.length (calls w))) as [d | r | x]; cbn;
    [reflexivity | | reflexivity].
  destruct (status_code r =? 200); cbn; [reflexivity |].
  rewrite Hr. reflexivity.
Qed.

(** Every attempt issues exactly one upstream call, however it ends. *)
Lemma attempt_calls (key : string) (m m' : Machine) (f : Flow unit) :
  attempt request upstream key m = (f, m') ->
  List.length (calls (snd m')) = S (List.length (calls (snd m))).
Proof.
  destruct m as [l w]. intros H.
  assert (Hi : forall c w0,
             List.length (calls (issued c w0)) = S (List.length (calls w0)))
    by (intros; cbn; rewrite length_app; cbn; lia).
  pose proof (drained_calls request w) as Hd.
  open_attempt in H.
  destruct (is_streaming request); cbn in H.
  - destruct (upstream (List.length (calls w))) as [d | r | x]; cbn in H.
    + inversion H; subst; cbn [snd]. apply Hi.
    + destruct (status_code r =? 200); cbn in H.
      * inversion H; subst; cbn [snd]. apply Hi.
      * destruct (response l) as [resp |]; cbn in H.
        -- destruct ((400 <=? status_code resp) && (status_code resp <? 500));
             inversion H; subst; cbn [snd]; apply Hi.
        -- inversion H; subst; cbn [snd]. apply Hi.
    + inversion H; subst; cbn [snd]. apply Hi.
  - rewrite Hd in H.
    destruct (upstream (List.length (calls w))) as [d | r | x]; cbn in H.
    + inversion H; subst; cbn [snd]. rewrite Hi, Hd. reflexivity.
    + destruct (status_code r <? 400); cbn in H.
      * inversion H; subst; cbn [snd]. rewrite Hi, Hd. reflexivity.
      * destruct ((400 <=? status_code r) && (status_code r <? 500));
          inversion H; subst; cbn [snd]; rewrite Hi, Hd; reflexivity.
    + inversion H; subst; cbn [snd]. rewrite Hi, Hd. reflexivity.
Qed.

(** The loop over a concatenation is the loop over the first part followed,
    when that falls through, by the loop over the second. *)
Lemma for_keys_app (pre post : list string) (m : Machine) :
  for_keys request upstream (pre ++ post) m =
    match for_keys request upstream pre m with
    | (Normal _, m') => for_keys request upstream post m'
    | (Return r, m') => (Return r, m')
    | (Raise e, m') => (Raise e, m')
    end.
Proof.
  revert m. induction pre as [| key pre IH]; intros m; cbn [app for_keys].
  - reflexivity.
  - unfold bind.
    destruct (attempt request upstream key m) as [[[] | r | e] m1];
      [apply IH | reflexivity | reflexivity].
Qed.

(** When the loop falls through it has issued one call per credential. *)
Lemma for_keys_exhausted_calls (keys : list string) (m m' : Machine) (u : unit) :
  for_keys request upstream keys m = (Normal u, m') ->
  List.length (calls (snd m')) =
    (List.length (calls (snd m)) + List.length keys)%nat.
Proof.
  revert m. induction keys as [| key keys IH]; intros m H; cbn in H.
  - inversion H; subst. cbn. lia.
  - unfold bind in H.
    destruct (attempt request upstream key m) as [[[] | r | e] m1] eqn:E;
      try discriminate.
    apply IH in H. apply attempt_calls in E. cbn [List.length]. lia.
Qed.

(** However the loop ends, it has issued at most one call per credential,
    and at least one when there is a credential. *)
Lemma for_keys_calls_bound (keys : list string) (m m' : Machine)
    (f : Flow unit) :
  for_keys request upstream keys m = (f, m') ->
  (List.length (calls (snd m)) <= List.length (calls (snd m')) <=
     List.length (calls (snd m)) + List.length keys)%nat /\
  (keys <> [] -> (List.length (calls (snd m)) < List.length (calls (snd m')))%nat).
Proof.
  revert m. induction keys as [| key keys IH]; intros m H; cbn in H.
  - inversion H; subst. cbn. split; [lia | congruence].
  - unfold bind in H. cbn [List.length].
    destruct (attempt request upstream key m) as [[[] | r | e] m1] eqn:E;
      apply attempt_calls in E.
    + apply IH in H. destruct H as [H1 _]. split; [lia | intros _; lia].
    + inversion H; subst. split; [lia | intros _; lia].
    + inversion H; subst. split; [lia | intros _; lia].
Qed.

(** An attempt after which the loop goes on has recorded its own outcome. *)
Lemma attempt_retried (key : string) (l l' : Locals) (w w' : World) (u : unit) :
  coherent request l ->
  attempt request upstream key (l, w) = (Normal u, (l', w')) ->
  coherent request l' /\
  retried (is_streaming request) (upstream (List.length (calls w))) = true /\
  last_status l' = fst (recorded_failure (upstream (List.length (calls w)))) /\
  last_error l' =
    Some (snd (recorded_failure (upstream (List.length (calls w))))).
Proof.
  intros Hc H. unfold coherent in *.
  destruct (is_streaming request) eqn:Hs.
  - rewrite (attempt_streamed key l w Hs (Hc eq_refl)) in H. cbn zeta in H.
    destruct (upstream (List.length (calls w))) as [d | r | x].
    + inversion H; subst. cbn. repeat split; auto.
    + destruct (status_code r =? 200); discriminate.
    + discriminate.
  - rewrite (attempt_buffered key l w Hs) in H. cbn zeta in H.
    destruct (upstream (List.length (calls w))) as [d | r | x].
    + inversion H; subst. cbn. repeat split; auto; discriminate.
    + destruct (status_code r <? 400); [discriminate |].
      destruct ((400 <=? status_code r) && (status_code r <? 500)) eqn:E;
        [| discriminate].
      inversion H; subst. cbn. repeat split; auto; discriminate.
    + discriminate.
Qed.

(** Conversely, an attempt with a retried outcome lets the loop go on. *)
Lemma attempt_goes_on (key : string) (l : Locals) (w : World) :
  coherent request l ->
  retried (is_streaming request) (upstream (List.length (calls w))) = true ->
  exists l' w', attempt request upstream key (l, w) = (Normal tt, (l', w')).
Proof.
  intros Hc H. unfold coherent in *.
  destruct (is_streaming request) eqn:Hs.
  - rewrite (attempt_streamed key l w Hs (Hc eq_refl)). cbn zeta.
    destruct (upstream (List.length (calls w))) as [d | r | x].
    + eauto.
    + cbn in H. discriminate.
    + cbn in H. discriminate.
  - rewrite (attempt_buffered key l w Hs). cbn zeta.
    destruct (upstream (List.length (calls w))) as [d | r | x].
    + eauto.
    + cbn in H.
      assert ((status_code r <? 400) = false) as -> by lia.
      rewrite H. eauto.
    + cbn in H. discriminate.
Qed.

(** The loop falls through exactly when every outcome it meets is a retried
    one. *)
Lemma for_keys_exhausts_iff (keys : list string) (l : Locals) (w : World) :
  coherent request l ->
  (exists m', for_keys request upstream keys (l, w) = (Normal tt, m')) <->
  (forall i, (i < List.length keys)%nat ->
     retried (is_streaming request) (upstream (List.length (calls w) + i)) = true).
Proof.
  revert l w. induction keys as [| key keys IH]; intros l w Hc; cbn.
  - split; [intros _ i Hi; lia | intros _; eexists; reflexivity].
  - unfold bind. split.
    + intros [m' H].
      destruct (attempt request upstream key (l, w)) as [[[] | r | e] [l1 w1]] eqn:E;
        try discriminate.
      pose proof (attempt_calls _ _ _ _ E) as Hn. cbn in Hn.
      destruct (attempt_retried _ _ _ _ _ _ Hc E) as (Hc1 & Hr & _).
      intros [| i] Hi.
      * rewrite Nat.add_0_r. exact Hr.
      * assert (Hx : exists m', for_keys request upstream keys (l1, w1) = (Normal tt, m'))
          by eauto.
        apply (IH l1 w1 Hc1) with (i := i) in Hx; [| lia].
        rewrite Hn in Hx.
        replace (List.length (calls w) + S i)%nat
          with (S (List.length (calls w)) + i)%nat by lia.
        exact Hx.
    + intros H.
      assert (H0 : retried (is_streaming request)
                     (upstream (List.length (calls w))) = true).
      { specialize (H 0%nat). rewrite Nat.add_0_r in H. apply H. lia. }
      destruct (attempt_goes_on key l w Hc H0) as (l1 & w1 & E).
      rewrite E.
      pose proof (attempt_calls _ _ _ _ E) as Hn. cbn in Hn.
      destruct (attempt_retried _ _ _ _ _ _ Hc E) as (Hc1 & _).
      apply (IH l1 w1 Hc1). intros i Hi. rewrite Hn.
      replace (S (List.length (calls w)) + i)%nat
        with (List.length (calls w) + S i)%nat by lia.
      apply H. lia.
Qed.

(** The loop keeps the locals coherent as long as it goes on. *)
Lemma for_keys_coherent (keys : list string) (l l' : Locals) (w w' : World)
    (u : unit) :
  coherent request l ->
  for_keys request upstream keys (l, w) = (Normal u, (l', w')) ->
  coherent request l'.
Proof.
  revert l w. induction keys as [| key keys IH]; intros l w Hc H; cbn in H.
  - inversion H; subst. exact Hc.
  - unfold bind in H.
    destruct (attempt request upstream key (l, w)) as [[[] | r | e] [l1 w1]] eqn:E;
      try discriminate.
    destruct (attempt_retried _ _ _ _ _ _ Hc E) as (Hc1 & _).
    exact (IH l1 w1 Hc1 H).
Qed.

(** When the loop falls through a non-empty list, the locals hold what the
    last attempt recorded. *)
Lemma for_keys_exhausted_last (keys : list string) (key : string)
    (l l' : Locals) (w w' : World) (u : unit) :
  coherent request l ->
  for_keys request upstream (keys ++ [key]) (l, w) = (Normal u, (l', w')) ->
  let o := upstream (List.length (calls w) + List.length keys) in
  last_status l' = fst (recorded_failure o) /\
  last_error l' = Some (snd (recorded_failure o)).
Proof.
  intros Hc H. rewrite for_keys_app in H.
  destruct (for_keys request upstream keys (l, w)) as [[[] | r | e] [l1 w1]] eqn:E;
    try discriminate.
  pose proof (for_keys_exhausted_calls _ _ _ _ E) as Hn. cbn in Hn.
  pose proof (for_keys_coherent _ _ _ _ _ _ Hc E) as Hc1.
  cbn in H. unfold bind in H.
  destruct (attempt request upstream key (l1, w1)) as [[[] | r | e] [l2 w2]] eqn:E2;
    try discriminate.
  inversion H; subst.
  destruct (attempt_retried _ _ _ _ _ _ Hc1 E2) as (_ & _ & Hs & He).
  cbn zeta. rewrite <- Hn. split; assumption.
Qed.

End AttemptFacts.

(** ** The handler as a whole *)

Lemma initial_coherent (request : Request) : coherent request (initial_locals request).
Proof. intros _. reflexivity. Qed.

(** With a credential at hand the handler is the failover loop over the
    shuffled list, started in a fresh world. *)
Lemma handler_runs_failover (request : Request) (environ : dict)
    (shuffle : list string -> list string) (upstream : nat -> Outcome) :
  api_keys request environ <> [] ->
  proxy_to_gemini request environ shuffle upstream =
    failover request upstream (shuffle (api_keys request environ)) fresh_world.
Proof.
  intros H. unfold proxy_to_gemini.
  destruct (api_keys request environ); [congruence | reflexivity].
Qed.


(** When the loop falls through a non-empty shuffled list, the handler
    returns what the last attempt recorded. *)
Lemma exhaustion_reply (request : Request) (upstream : nat -> Outcome)
    (keys : list string) (key : string) (m : Machine) (u : unit) :
  for_keys request upstream (keys ++ [key]) (initial_locals request, fresh_world)
    = (Normal u, m) ->
  failover request upstream (keys ++ [key]) fresh_world =
    (Replied
       (Response (Some (snd (recorded_failure (upstream (List.length keys)))))
          (fst (recorded_failure (upstream (List.length keys)))) []
          (Some "application/json")), snd m).
Proof.
  intros H. destruct m as [l w].
  destruct (for_keys_exhausted_last request upstream keys key _ _ _ _ _
              (initial_coherent request) H) as [Hs He].
  cbn in Hs, He. unfold failover. rewrite H, Hs, He. reflexivity.
Qed.

(** ** Missing credentials *)

(** C8. When the credential header and the environment variable both parse
    to the empty list, the handler answers 400 with a JSON error object and
    issues no upstream call; when the header parses to a non-empty list, that
    list is the credential list whatever the environment holds. *)
Theorem missing_credentials_400 (request : Request) (environ : dict)
    (shuffle : list string -> list string) (upstream : nat -> Outcome) :
  (header_keys request = [] -> env_keys environ = [] ->
   fst (proxy_to_gemini request environ shuffle upstream) =
     Replied (Response (Some missing_keys_body) 400 [] (Some "application/json"))
   /\ json_error_object missing_keys_body = true
   /\ calls (snd (proxy_to_gemini request environ shuffle upstream)) = [])
  /\
  (header_keys request <> [] ->
   api_keys request environ = header_keys request
   /\ proxy_to_gemini request environ shuffle upstream =
        failover request upstream (shuffle (header_keys request)) fresh_world).
Proof.
  split.
  - intros Hh He. unfold proxy_to_gemini, api_keys. rewrite Hh, He.
    repeat split; reflexivity.
  - intros Hh.
    assert (Hk : api_keys request environ = header_keys request).
    { unfold api_keys. destruct (header_keys request); [congruence | reflexivity]. }
    split; [exact Hk |].
    rewrite handler_runs_failover by (rewrite Hk; exact Hh).
    rewrite Hk. reflexivity.
Qed.

(** ** Exhaustion *)

(** C4. With a non-empty credential list on which the loop falls through,
    that is, every attempt recorded a failure and was retried, the handler
    returns the status and body recorded for the attempt at the last position
    of the shuffled list. *)
Theorem exhaustion_returns_last_failure (request : Request) (environ : dict)
    (shuffle : list string -> list string) (upstream : nat -> Outcome)
    (keys : list string) (key : string) (m : Machine) (u : unit) :
  api_keys request environ <> [] ->
  shuffle (api_keys request environ) = keys ++ [key] ->
  for_keys request upstream (keys ++ [key]) (initial_locals request, fresh_world)
    = (Normal u, m) ->
  fst (proxy_to_gemini request environ shuffle upstream) =
    Replied
      (Response (Some (snd (recorded_failure (upstream (List.length keys)))))
         (fst (recorded_failure (upstream (List.length keys)))) []
         (Some "application/json")).
Proof.
  intros Hne Hsh Hrun.
  rewrite handler_runs_failover by exact Hne.
  rewrite Hsh, (exhaustion_reply _ _ _ _ _ _ Hrun). reflexivity.
Qed.

(** C9. The body recorded for a network failure is the JSON text with the
    members [error], holding [Proxy fetch error], and [details], holding the
    fixed prefix followed by the description of the failure, so that the
    description occurs in it.  An attempt that fails at the network level, on
    a buffered or a streaming path, records status 502 with that body for its
    own description, and the loop goes on.  When the attempt at the last
    position of the list meets such a failure after all earlier attempts were
    retried, the caller gets 502 with that body.  The loop over no credential
    at all ends in the initial status 500 with no body.  (An attempt that
    finds the request stream already read does not meet a network failure, it
    breaks, and no premise here covers it.) *)
Theorem network_failure_recorded_as_502 (request : Request)
    (upstream : nat -> Outcome) :
  (forall d,
     let q := String (ascii_of_nat 34) EmptyString in
     fetch_error_body d =
       ("{" ++ q ++ "error" ++ q ++ ": " ++ q ++ "Proxy fetch error" ++ q
        ++ ", " ++ q ++ "details" ++ q ++ ": " ++ q
        ++ "无法连接到目标服务器: " ++ d ++ q ++ "}")%string /\
     PyStr.contains d (fetch_error_body d) = true)
  /\
  (forall key l w d,
     upstream (List.length (calls w)) = NetworkFailure d ->
     exists l' w',
       attempt request upstream key (l, w) = (Normal tt, (l', w')) /\
       last_status l' = 502 /\ last_error l' = Some (fetch_error_body d))
  /\
  (forall environ shuffle keys key d m u,
     api_keys request environ <> [] ->
     shuffle (api_keys request environ) = keys ++ [key] ->
     for_keys request upstream keys (initial_locals request, fresh_world)
       = (Normal u, m) ->
     upstream (List.length keys) = NetworkFailure d ->
     fst (proxy_to_gemini request environ shuffle upstream) =
       Replied (Response (Some (fetch_error_body d)) 502 []
                  (Some "application/json"%string)))
  /\
  (forall w,
     failover request upstream [] w =
       (Replied (Response None 500 [] (Some "application/json"%string)), w)).
Proof.
  split; [| split; [| split]].
  - intros d. cbn zeta. split; [reflexivity |].
    apply contains_iff.
    exists ("{" ++ PyStr.dq ++ "error" ++ PyStr.dq ++ ": " ++ PyStr.dq
            ++ "Proxy fetch error" ++ PyStr.dq ++ ", " ++ PyStr.dq ++ "details"
            ++ PyStr.dq ++ ": " ++ PyStr.dq ++ "无法连接到目标服务器: ")%string,
           (PyStr.dq ++ "}")%string.
    reflexivity.
  - intros key l w d Hup.
    open_attempt. pose proof (drained_calls request w) as Hd.
    destruct (is_streaming request); cbn.
    + rewrite Hup. cbn. eexists _, _. repeat split.
    + rewrite Hd, Hup. cbn. eexists _, _. repeat split.
  - intros environ shuffle keys key d [l w] u Hne Hsh Hrun Hup.
    pose proof (for_keys_exhausted_calls _ _ _ _ _ _ Hrun) as Hn. cbn in Hn.
    pose proof (for_keys_coherent _ _ _ _ _ _ _ _ (initial_coherent request) Hrun)
      as Hc.
    assert (Hr : retried (is_streaming request)
                   (upstream (List.length (calls w))) = true)
      by (rewrite Hn, Hup; reflexivity).
    destruct (attempt_goes_on request upstream key l w Hc Hr) as (l' & w' & E).
    assert (Hall : for_keys request upstream (keys ++ [key])
                     (initial_locals request, fresh_world) = (Normal tt, (l', w'))).
    { rewrite for_keys_app, Hrun. cbn. unfold bind. rewrite E. reflexivity. }
    rewrite handler_runs_failover by exact Hne.
    rewrite Hsh, (exhaustion_reply _ _ _ _ _ _ Hall), Hup. reflexivity.
  - intros w. reflexivity.
Qed.

(** ** Buffered success *)


(** ** The inbound body of buffered requests *)

Section BufferedBody.

Variable request : Request.
Variable upstream : nat -> Outcome.
Hypothesis buffered : is_streaming request = false.

(** The world after a buffered attempt, however the attempt ends. *)
Lemma attempt_buffered_world (key : string) (l : Locals) (w : World) :
  snd (snd (attempt request upstream key (l, w))) =
    issued (call_of request (keyed key l) (Buffered (body_of request w)))
      (drained request w).
Proof.
  rewrite (attempt_buffered request upstream key l w buffered). cbn zeta.
  destruct (upstream (List.length (calls w))) as [d | r | x];
    [reflexivity | | reflexivity].
  destruct (status_code r <? 400); [reflexivity |].
  destruct ((400 <=? status_code r) && (status_code r <? 500)); reflexivity.
Qed.

(** One attempt takes a pristine world, and likewise a world in which the
    body is already cached, to one in which the body was read once. *)
Lemma attempt_reads_once (key : string) (l : Locals) (w : World) :
  pristine w \/ buffered_once request w ->
  buffered_once request (snd (snd (attempt request upstream key (l, w)))).
Proof.
  intros H. rewrite attempt_buffered_world.
  unfold buffered_once, issued, drained, body_of.
  destruct H as [(Hc & Hr & Hk) | (Hc & Hr & Hk & Hall)]; rewrite Hc; cbn.
  - rewrite Hr, Hk. repeat split; [discriminate |].
    constructor; [reflexivity | constructor].
  - rewrite Hc, Hr. repeat split.
    + intros E. apply app_eq_nil in E. destruct E; discriminate.
    + apply Forall_app. split; [exact Hall |].
      constructor; [reflexivity | constructor].
Qed.

(** The same for the loop over at least one credential. *)
Lemma for_keys_reads_once (keys : list string) (l : Locals) (w : World) :
  keys <> [] ->
  pristine w \/ buffered_once request w ->
  buffered_once request (snd (snd (for_keys request upstream keys (l, w)))).
Proof.
  revert l w. induction keys as [| key keys IH]; intros l w Hne H;
    [congruence |].
  pose proof (attempt_reads_once key l w H) as H1.
  cbn [for_keys]. unfold bind.
  destruct (attempt request upstream key (l, w)) as [[[] | r | e] [l1 w1]];
    cbn [snd] in *; try exact H1.
  destruct keys as [| k2 keys]; [exact H1 |].
  apply IH; [discriminate | right; exact H1].
Qed.

End BufferedBody.

Lemma fresh_pristine : pristine fresh_world.
Proof. repeat split. Qed.

(** The world that [failover] leaves is the one its loop leaves. *)
Lemma failover_world (request : Request) (upstream : nat -> Outcome)
    (keys : list string) (w : World) :
  snd (failover request upstream keys w) =
    snd (snd (for_keys request upstream keys (initial_locals request, w))).
Proof.
  unfold failover.
  destruct (for_keys request upstream keys (initial_locals request, w))
    as [[[] | r | e] [l1 w1]]; reflexivity.
Qed.

(** C6. On a buffered path every upstream call of the invocation carries the
    bytes of the inbound body, and the receive channel is drained once if any
    call is issued and not at all otherwise; at whatever point the loop is
    observed after its first attempt, the channel has been drained exactly
    once and the bytes are in the request's cache, so that no later attempt
    drains it again. *)
Theorem buffered_body_read_once (request : Request) (environ : dict)
    (shuffle : list string -> list string) (upstream : nat -> Outcome) :
  is_streaming request = false ->
  let w := snd (proxy_to_gemini request environ shuffle upstream) in
  Forall (fun c => call_body c = Buffered (source request)) (calls w) /\
  source_reads w = (match calls w with [] => 0 | _ :: _ => 1 end)%nat /\
  (forall pre,
     pre <> [] ->
     let w' := snd (snd (for_keys request upstream pre
                           (initial_locals request, fresh_world))) in
     source_reads w' = 1%nat /\ body_cache w' = Some (source request)).
Proof.
  intros Hs w.
  assert (Hloop : forall keys,
             keys <> [] ->
             buffered_once request
               (snd (snd (for_keys request upstream keys
                            (initial_locals request, fresh_world))))).
  { intros keys Hne.
    apply for_keys_reads_once; [exact Hs | exact Hne | left; exact fresh_pristine]. }
  assert (Hw : w = fresh_world \/ buffered_once request w).
  { subst w. unfold proxy_to_gemini.
    destruct (api_keys request environ) as [| k ks]; [left; reflexivity |].
    rewrite failover_world.
    destruct (shuffle (k :: ks)) as [| k' ks'] eqn:E.
    - left. reflexivity.
    - right. apply Hloop. discriminate. }
  split; [| split].
  - destruct Hw as [-> | (_ & _ & _ & Hall)]; [constructor | exact Hall].
  - destruct Hw as [-> | (_ & Hr & Hk & _)]; [reflexivity |].
    rewrite Hr. destruct (calls w); [congruence | reflexivity].
  - intros pre Hne w'. destruct (Hloop pre Hne) as (Hc & Hr & _).
    split; assumption.
Qed.

(** ** Header filtering *)

(** Whatever passes the filter of line 49 or line 91 has a name outside the
    excluded list. *)
Lemma filtered_names (excluded : list string) (items : list (string * string))
    (kv : string * string) :
  In kv
    (of_items
       (filter (fun x => negb (PyStr.mem (PyStr.lower (fst x)) excluded)) items)) ->
  In kv items /\ PyStr.mem (PyStr.lower (fst kv)) excluded = false.
Proof.
  intros H. apply of_items_In, filter_In in H. destruct H as [H1 H2].
  split; [exact H1 |]. destruct (PyStr.mem (PyStr.lower (fst kv)) excluded);
    [discriminate | reflexivity].
Qed.


(** The dict key [User-Agent], spelled exactly so, holds the fixed literal. *)
Lemma sanitize_sets_user_agent (hs : list (string * string)) :
  PyDict.get "User-Agent" (sanitize_headers hs) = Some USER_AGENT.
Proof.
  unfold sanitize_headers. rewrite get_set. reflexivity.
Qed.

(** Inbound headers under any other spelling of a name that is not excluded
    pass through, [user-agent] included. *)
Lemma sanitize_keeps_others (hs : list (string * string)) (k : string) :
  k <> "User-Agent" ->
  PyStr.mem (PyStr.lower k) excluded_headers = false ->
  PyDict.get k (sanitize_headers hs) = PyDict.get k (of_items hs).
Proof.
  intros Hk Hex. unfold sanitize_headers, filter_headers.
  rewrite get_set.
  destruct (String.eqb k "User-Agent") eqn:E;
    [apply String.eqb_eq in E; contradiction |].
  rewrite (get_of_filtered_items
             (fun n => negb (PyStr.mem (PyStr.lower n) excluded_headers))).
  rewrite Hex. reflexivity.
Qed.

(** The headers of a buffered success carry neither encoding header, and
    every other upstream header as it came. *)
Lemma response_headers_filtered (r : HttpxResponse) (name : string) :
  PyStr.mem (PyStr.lower name) ["content-encoding"; "transfer-encoding"] = true ->
  http_values name (response_headers r) = [].
Proof.
  intros Hex. apply http_values_none. intros kv Hin.
  destruct (String.eqb (PyStr.lower (fst kv)) (PyStr.lower name)) eqn:E;
    [| reflexivity].
  apply String.eqb_eq in E. exfalso.
  apply filtered_names in Hin. destruct Hin as [_ Hin].
  rewrite E, Hex in Hin. discriminate.
Qed.

Lemma response_headers_pass (r : HttpxResponse) (k : string) :
  PyStr.mem (PyStr.lower k) ["content-encoding"; "transfer-encoding"] = false ->
  PyDict.get k (response_headers r) = PyDict.get k (of_items (resp_headers r)).
Proof.
  intros Hex. unfold response_headers.
  rewrite (get_of_filtered_items
             (fun n => negb (PyStr.mem (PyStr.lower n)
                               ["content-encoding"; "transfer-encoding"]))).
  rewrite Hex. reflexivity.
Qed.

(** ** The headers of every upstream call *)

Section CallHeaders.

Variable request : Request.
Variable upstream : nat -> Outcome.

Lemma keyed_sanitized (key : string) (l : Locals) :
  sanitized request l ->
  headers (keyed key l) =
    PyDict.set "x-goog-api-key" key (sanitize_headers (req_headers request)).
Proof.
  intros [H | [k0 H]]; cbn; rewrite H; [reflexivity | apply set_set].
Qed.

(** One attempt issues one call with the keyed headers and leaves them in
    the local [headers]. *)
Lemma attempt_shape (key : string) (l l' : Locals) (w w' : World)
    (f : Flow unit) :
  coherent request l ->
  attempt request upstream key (l, w) = (f, (l', w')) ->
  headers l' = headers (keyed key l) /\
  exists b, calls w' = calls w ++ [call_of request (keyed key l) b].
Proof.
  intros Hc H. unfold coherent in Hc.
  pose proof (drained_calls request w) as Hd.
  destruct (is_streaming request) eqn:Hs.
  - rewrite (attempt_streamed request upstream key l w Hs (Hc eq_refl)) in H.
    cbn zeta in H.
    destruct (upstream (List.length (calls w))) as [d | r | x].
    + inversion H; subst. split; [reflexivity | eexists; reflexivity].
    + destruct (status_code r =? 200); inversion H; subst;
        (split; [reflexivity | eexists; reflexivity]).
    + inversion H; subst. split; [reflexivity | eexists; reflexivity].
  - rewrite (attempt_buffered request upstream key l w Hs) in H. cbn zeta in H.
    destruct (upstream (List.length (calls w))) as [d | r | x].
    + inversion H; subst. split; [reflexivity |].
      eexists. cbn. rewrite Hd. reflexivity.
    + destruct (status_code r <? 400);
        [| destruct ((400 <=? status_code r) && (status_code r <? 500))];
        inversion H; subst;
        (split; [reflexivity | eexists; cbn; rewrite Hd; reflexivity]).
    + inversion H; subst. split; [reflexivity |].
      eexists. cbn. rewrite Hd. reflexivity.
Qed.

(** Every call that the loop issues carries the keyed headers. *)
Lemma for_keys_call_headers (keys : list string) (l l' : Locals)
    (w w' : World) (f : Flow unit) :
  coherent request l -> sanitized request l ->
  Forall (keyed_headers request) (calls w) ->
  for_keys request upstream keys (l, w) = (f, (l', w')) ->
  Forall (keyed_headers request) (calls w').
Proof.
  revert l w. induction keys as [| key keys IH]; intros l w Hc Hsan Hall H;
    cbn in H.
  - inversion H; subst. exact Hall.
  - unfold bind in H.
    destruct (attempt request upstream key (l, w)) as [fl [l1 w1]] eqn:E.
    destruct (attempt_shape _ _ _ _ _ _ Hc E) as (Hh & b & Hcalls).
    assert (Hall1 : Forall (keyed_headers request) (calls w1)).
    { rewrite Hcalls. apply Forall_app. split; [exact Hall |].
      constructor; [| constructor].
      exists key. cbn [call_headers call_of]. apply keyed_sanitized, Hsan. }
    destruct fl as [[] | r | e].
    + destruct (attempt_retried _ _ _ _ _ _ _ _ Hc E) as (Hc1 & _).
      apply (IH l1 w1 Hc1); [| exact Hall1 | exact H].
      right. exists key. rewrite Hh. apply keyed_sanitized, Hsan.
    + inversion H; subst. exact Hall1.
    + inversion H; subst. exact Hall1.
Qed.

End CallHeaders.

(** Through the handler: every upstream call carries the request's headers
    sanitised once, with the credential of its attempt written on top. *)
Lemma handler_call_headers (request : Request) (environ : dict)
    (shuffle : list string -> list string) (upstream : nat -> Outcome) :
  Forall (keyed_headers request)
    (calls (snd (proxy_to_gemini request environ shuffle upstream))).
Proof.
  unfold proxy_to_gemini.
  destruct (api_keys request environ) as [| k ks]; [constructor |].
  rewrite failover_world.
  destruct (for_keys request upstream (shuffle (k :: ks))
              (initial_locals request, fresh_world)) as [f [l w]] eqn:E.
  apply (for_keys_call_headers request upstream _ _ _ _ _ _
           (initial_coherent request)) in E.
  - exact E.
  - left. reflexivity.
  - constructor.
Qed.

(** ** When the handler replies and when it does not *)


(** X13. On a streaming path any response other than 200 makes the handler leave
    with [UnboundLocalError]: line 95 reads the local [response], which only
    the buffered branch binds. *)
Lemma streamed_non_200_escapes (request : Request) (environ : dict)
    (shuffle : list string -> list string) (upstream : nat -> Outcome)
    (pre post : list string) (key : string) (r : HttpxResponse)
    (m : Machine) (u : unit) :
  is_streaming request = true ->
  api_keys request environ <> [] ->
  shuffle (api_keys request environ) = pre ++ key :: post ->
  for_keys request upstream pre (initial_locals request, fresh_world)
    = (Normal u, m) ->
  upstream (List.length pre) = Responds r ->
  status_code r <> 200 ->
  fst (proxy_to_gemini request environ shuffle upstream) =
    Escaped (UnboundLocalError "response").
Proof.
  intros Hs Hne Hsh Hrun Hup Hst. destruct m as [l w].
  pose proof (for_keys_exhausted_calls _ _ _ _ _ _ Hrun) as Hn. cbn in Hn.
  pose proof (for_keys_coherent _ _ _ _ _ _ _ _ (initial_coherent request) Hrun)
    as Hc.
  rewrite handler_runs_failover by exact Hne.
  rewrite Hsh. unfold failover. rewrite for_keys_app, Hrun.
  cbn [for_keys]. unfold bind.
  rewrite (attempt_streamed request upstream key l w Hs (Hc Hs)). cbn zeta.
  rewrite Hn, Hup.
  assert ((status_code r =? 200) = false) as -> by lia.
  reflexivity.
Qed.

(** ** Runs on which the handler departs from its description *)

Import Samples.

(** C1. A streaming path whose first credential is answered 404: the handler
    leaves with [UnboundLocalError] after one call and the second credential
    is never tried, whereas the same exchange on a buffered path records the
    404, goes on and returns the second credential's 200. *)
Theorem streamed_404_aborts_handler :
  let upstream := script [Responds (failing 404 "denied"); Responds (ok "hi")] in
  is_streaming stream_generate = true /\
  proxy_to_gemini stream_generate [] same upstream =
    (Escaped (UnboundLocalError "response"),
     {| body_cache := None; source_reads := 0;
        calls := [call_of stream_generate
                    (keyed "k1" (initial_locals stream_generate)) Lazy] |}) /\
  fst (proxy_to_gemini generate [] same upstream) =
    Replied (Response (Some "hi") 200 [("content-type", "application/json")]
               (Some "application/json")) /\
  List.length (calls (snd (proxy_to_gemini generate [] same upstream))) = 2%nat.
Proof. vm_compute. repeat split. Qed.

(** C2. A streaming path whose first attempt fails at the network level and
    whose second is answered 302: the first failure is retried, the second
    attempt makes the handler leave with an exception instead of a reply. *)
Theorem streamed_redirect_escapes_unshaped :
  let upstream :=
    script [NetworkFailure "connection reset"; Responds (failing 302 "")] in
  fst (proxy_to_gemini stream_generate [] same upstream) =
    Escaped (UnboundLocalError "response") /\
  (forall reply,
     fst (proxy_to_gemini stream_generate [] same upstream) <> Replied reply) /\
  List.length (calls (snd (proxy_to_gemini stream_generate [] same upstream)))
    = 2%nat.
Proof.
  cbn zeta.
  assert (E : fst (proxy_to_gemini stream_generate [] same
                     (script [NetworkFailure "connection reset";
                              Responds (failing 302 "")])) =
              Escaped (UnboundLocalError "response"))
    by (vm_compute; reflexivity).
  split; [exact E |]. split.
  - intros reply. rewrite E. discriminate.
  - vm_compute. reflexivity.
Qed.

(** C3. A streaming path whose first credential is answered 500: no
    response with status 500 is returned, the handler leaves with
    [UnboundLocalError]. *)
Theorem streamed_500_not_returned :
  let upstream := script [Responds (failing 500 "boom")] in
  fst (proxy_to_gemini stream_generate [] same upstream) =
    Escaped (UnboundLocalError "response") /\
  (forall reply,
     fst (proxy_to_gemini stream_generate [] same upstream) <> Replied reply).
Proof.
  cbn zeta.
  assert (E : fst (proxy_to_gemini stream_generate [] same
                     (script [Responds (failing 500 "boom")])) =
              Escaped (UnboundLocalError "response"))
    by (vm_compute; reflexivity).
  split; [exact E |]. intros reply. rewrite E. discriminate.
Qed.

(** C5. A buffered path whose first credential is answered 500 with a
    [content-encoding] header: the reply carries the decoded body together
    with that header, which the success path of the same loop drops. *)
Theorem server_fault_keeps_encoding_header :
  let upstream := script [Responds (failing 500 "boom")] in
  is_streaming generate = false /\
  fst (proxy_to_gemini generate [] same upstream) =
    Replied
      (Response (Some "boom") 500
         [("content-type", "application/json"); ("content-encoding", "gzip")]
         None) /\
  (forall reply,
     fst (proxy_to_gemini generate [] same upstream) = Replied reply ->
     http_values "Content-Encoding" (reply_headers reply) = ["gzip"]) /\
  http_values "Content-Encoding" (response_headers (failing 500 "boom")) = [].
Proof.
  cbn zeta.
  assert (E : fst (proxy_to_gemini generate [] same
                     (script [Responds (failing 500 "boom")])) =
              Replied
                (Response (Some "boom") 500
                   [("content-type", "application/json");
                    ("content-encoding", "gzip")] None))
    by (vm_compute; reflexivity).
  split; [reflexivity |]. split; [exact E |]. split.
  - intros reply H. rewrite E in H. inversion H; subst. reflexivity.
  - reflexivity.
Qed.

(** C7. An inbound request with a [user-agent] header, as ASGI servers
    deliver it: the outbound headers of every call carry the inbound value
    next to the fixed literal, because line 52 writes the dict key
    [User-Agent] and leaves the key [user-agent] in place. *)
Theorem inbound_user_agent_survives :
  let upstream := script [Responds (failing 404 "denied"); Responds (ok "hi")] in
  http_values "User-Agent" (sanitize_headers (req_headers generate)) =
    ["curl/8.0"; USER_AGENT] /\
  map (fun c => http_values "User-Agent" (call_headers c))
    (calls (snd (proxy_to_gemini generate [] same upstream))) =
    [["curl/8.0"; USER_AGENT]; ["curl/8.0"; USER_AGENT]] /\
  map (fun c => http_values "Host" (call_headers c))
    (calls (snd (proxy_to_gemini generate [] same upstream))) = [[]; []] /\
  map (fun c => http_values "X-Goog-Api-Key" (call_headers c))
    (calls (snd (proxy_to_gemini generate [] same upstream))) = [["k1"]; ["k2"]].
Proof. vm_compute. repeat split. Qed.

(** ** Instances

    Each theorem above that has premises, applied to one of the sample runs. *)

Lemma missing_credentials_400_witness :
  (header_keys anonymous = [] /\
   env_keys [("GOOGLE_API_KEYS", " ,, ")] = [] /\
   fst (proxy_to_gemini anonymous [("GOOGLE_API_KEYS", " ,, ")] same (script [])) =
     Replied (Response (Some missing_keys_body) 400 [] (Some "application/json")) /\
   calls (snd (proxy_to_gemini anonymous [("GOOGLE_API_KEYS", " ,, ")] same
                 (script []))) = []) /\
  (header_keys generate <> [] /\
   api_keys generate [("GOOGLE_API_KEYS", "e1")] = ["k1"; "k2"]).
Proof.
  split.
  - destruct (missing_credentials_400 anonymous [("GOOGLE_API_KEYS", " ,, ")]
                same (script [])) as [H _].
    assert (Hh : header_keys anonymous = []) by reflexivity.
    assert (He : env_keys [("GOOGLE_API_KEYS", " ,, ")] = []) by reflexivity.
    destruct (H Hh He) as (H1 & _ & H3).
    repeat split; assumption.
  - destruct (missing_credentials_400 generate [("GOOGLE_API_KEYS", "e1")]
                same (script [])) as [_ H].
    assert (Hh : header_keys generate <> []) by (vm_compute; discriminate).
    destruct (H Hh) as [H1 _].
    split; [exact Hh | exact H1].
Defined.

Lemma exhaustion_returns_last_failure_witness :
  let upstream :=
    script [Responds (failing 404 "first"); Responds (failing 429 "second")] in
  api_keys generate [] <> [] /\
  same (api_keys generate []) = ["k1"] ++ ["k2"] /\
  fst (proxy_to_gemini generate [] same upstream) =
    Replied (Response (Some "second") 429 [] (Some "application/json")).
Proof.
  cbn zeta.
  assert (Hne : api_keys generate [] <> []) by (vm_compute; discriminate).
  assert (Hsh : same (api_keys generate []) = ["k1"] ++ ["k2"]) by reflexivity.
  split; [exact Hne |]. split; [exact Hsh |].
  refine (exhaustion_returns_last_failure generate [] same
            (script [Responds (failing 404 "first"); Responds (failing 429 "second")])
            ["k1"] "k2"
            (snd (for_keys generate
                    (script [Responds (failing 404 "first");
                             Responds (failing 429 "second")])
                    (["k1"] ++ ["k2"]) (initial_locals generate, fresh_world)))
            tt Hne Hsh _).
  vm_compute. reflexivity.
Defined.

Lemma network_failure_recorded_as_502_witness :
  let upstream := script [Responds (failing 404 "first")] in
  let q := String (ascii_of_nat 34) EmptyString in
  let body :=
    ("{" ++ q ++ "error" ++ q ++ ": " ++ q ++ "Proxy fetch error" ++ q
     ++ ", " ++ q ++ "details" ++ q ++ ": " ++ q
     ++ "无法连接到目标服务器: timed out" ++ q ++ "}")%string in
  (exists l' w',
     attempt generate upstream "k2"
       (initial_locals generate,
        issued (call_of generate (initial_locals generate) (Buffered "{}"))
          fresh_world)
       = (Normal tt, (l', w')) /\
     last_status l' = 502 /\ last_error l' = Some body) /\
  upstream 1%nat = NetworkFailure "timed out" /\
  fst (proxy_to_gemini generate [] same upstream) =
    Replied (Response (Some body) 502 [] (Some "application/json"%string)) /\
  fst (failover generate upstream [] fresh_world) =
    Replied (Response None 500 [] (Some "application/json"%string)).
Proof.
  cbn zeta.
  destruct (network_failure_recorded_as_502 generate
              (script [Responds (failing 404 "first")])) as (_ & Ha & Hb & Hc).
  split; [apply Ha; reflexivity |].
  split; [reflexivity |]. split.
  - refine (Hb [] same ["k1"%string] "k2"%string "timed out"%string
              (snd (for_keys generate (script [Responds (failing 404 "first")])
                      ["k1"%string] (initial_locals generate, fresh_world)))
              tt _ _ _ _).
    + vm_compute. discriminate.
    + reflexivity.
    + vm_compute. reflexivity.
    + reflexivity.
  - rewrite Hc. reflexivity.
Defined.


Lemma buffered_body_read_once_witness :
  let upstream :=
    script [Responds (failing 404 "first"); NetworkFailure "reset";
            Responds (ok "hi")] in
  is_streaming generate = false /\
  map call_body (calls (snd (proxy_to_gemini generate [] same upstream))) =
    [Buffered "{}"; Buffered "{}"] /\
  source_reads (snd (proxy_to_gemini generate [] same upstream)) = 1%nat.
Proof.
  cbn zeta.
  assert (Hs : is_streaming generate = false) by reflexivity.
  destruct (buffered_body_read_once generate [] same
              (script [Responds (failing 404 "first"); NetworkFailure "reset";
                       Responds (ok "hi")]) Hs) as (_ & Hr & _).
  split; [exact Hs |]. split; [reflexivity |].
  rewrite Hr. reflexivity.
Defined.

(** * Further properties of the handler *)

(** ** Parsing a credential list (lines 24 and 29) *)

Section KeyParsing.

Lemma split_not_nil (sep : ascii) (s : string) : PyStr.split sep s <> [].
Proof.
  destruct s as [| c s]; cbn; [discriminate |].
  destruct (Ascii.eqb c sep); [discriminate |].
  destruct (PyStr.split sep s); discriminate.
Qed.

(** A piece without the separator, followed by the separator, is split off
    whole. *)
Lemma split_piece (sep : ascii) (k s : string) :
  has_char sep k = false ->
  PyStr.split sep (k ++ String sep s)%string = k :: PyStr.split sep s.
Proof.
  induction k as [| c k IH]; cbn; intros H.
  - rewrite Ascii.eqb_refl. reflexivity.
  - apply orb_false_iff in H. destruct H as [Hc Hk].
    rewrite Hc, (IH Hk). reflexivity.
Qed.

Lemma split_single (sep : ascii) (k : string) :
  has_char sep k = false -> PyStr.split sep k = [k].
Proof.
  induction k as [| c k IH]; cbn; intros H; [reflexivity |].
  apply orb_false_iff in H. destruct H as [Hc Hk].
  rewrite Hc, (IH Hk). reflexivity.
Qed.

(** Splitting undoes joining, for pieces that are free of the separator. *)
Lemma split_concat (pieces : list string) :
  Forall (fun p => has_char "," p = false) pieces ->
  pieces <> [] ->
  PyStr.split "," (String.concat "," pieces) = pieces.
Proof.
  induction pieces as [| p pieces IH]; intros Hall Hne; [congruence |].
  inversion Hall as [| ? ? Hp Hrest]; subst.
  destruct pieces as [| q pieces].
  - cbn. apply split_single, Hp.
  - change (String.concat "," (p :: q :: pieces))
      with (p ++ String "," (String.concat "," (q :: pieces)))%string.
    rewrite (split_piece _ _ _ Hp), IH; [reflexivity | exact Hrest | discriminate].
Qed.

(** No piece of a split holds the separator. *)
Lemma split_pieces_clean (sep : ascii) (s p : string) :
  In p (PyStr.split sep s) -> has_char sep p = false.
Proof.
  revert p. induction s as [| c s IH]; cbn; intros p H.
  - destruct H as [<- | []]. reflexivity.
  - destruct (Ascii.eqb c sep) eqn:E.
    + destruct H as [<- | H]; [reflexivity | apply IH, H].
    + destruct (PyStr.split sep s) as [| w ws] eqn:Es.
      * destruct H as [<- | []]. cbn. rewrite E. reflexivity.
      * destruct H as [<- | H].
        -- cbn. rewrite E. apply IH. left. reflexivity.
        -- apply IH. right. exact H.
Qed.

Lemma lstrip_keeps_clean (c : ascii) (s : string) :
  has_char c s = false -> has_char c (PyStr.lstrip s) = false.
Proof.
  induction s as [| a s IH]; cbn; intros H; [reflexivity |].
  apply orb_false_iff in H. destruct H as [Ha Hs].
  destruct (PyStr.isspace a); [apply IH, Hs |].
  cbn. rewrite Ha, Hs. reflexivity.
Qed.

Lemma rstrip_keeps_clean (c : ascii) (s : string) :
  has_char c s = false -> has_char c (PyStr.rstrip s) = false.
Proof.
  induction s as [| a s IH]; cbn; intros H; [reflexivity |].
  apply orb_false_iff in H. destruct H as [Ha Hs].
  specialize (IH Hs).
  destruct (PyStr.rstrip s) as [| b t].
  - destruct (PyStr.isspace a); cbn; [reflexivity |]. rewrite Ha. reflexivity.
  - cbn. cbn in IH. rewrite Ha, IH. reflexivity.
Qed.

Lemma lstrip_no_leading_space (s : string) : no_leading_space (PyStr.lstrip s).
Proof.
  induction s as [| c s IH]; cbn; [exact I |].
  destruct (PyStr.isspace c) eqn:E; [exact IH | exact E].
Qed.

Lemma lstrip_fixed (s : string) : no_leading_space s -> PyStr.lstrip s = s.
Proof.
  destruct s as [| c s]; cbn; [reflexivity |]. intros ->. reflexivity.
Qed.

Lemma rstrip_no_leading_space (s : string) :
  no_leading_space s -> no_leading_space (PyStr.rstrip s).
Proof.
  destruct s as [| c s]; cbn; [trivial |]. intros H.
  destruct (PyStr.rstrip s); [rewrite H |]; exact H.
Qed.

Lemma rstrip_idempotent (s : string) :
  PyStr.rstrip (PyStr.rstrip s) = PyStr.rstrip s.
Proof.
  induction s as [| c s IH]; cbn; [reflexivity |].
  destruct (PyStr.rstrip s) as [| b t] eqn:E.
  - destruct (PyStr.isspace c) eqn:Ec; cbn; [reflexivity |].
    rewrite Ec. reflexivity.
  - cbn [PyStr.rstrip]. fold PyStr.rstrip.
    change (PyStr.rstrip (String b t)) with
      (match PyStr.rstrip t with
       | EmptyString =>
           if PyStr.isspace b then EmptyString else String b EmptyString
       | String x y => String b (String x y)
       end) in IH |- *.
    rewrite IH. reflexivity.
Qed.

(** Stripping twice is stripping once. *)
Lemma strip_idempotent (s : string) :
  PyStr.strip (PyStr.strip s) = PyStr.strip s.
Proof.
  unfold PyStr.strip.
  rewrite (lstrip_fixed (PyStr.rstrip (PyStr.lstrip s))).
  - apply rstrip_idempotent.
  - apply rstrip_no_leading_space, lstrip_no_leading_space.
Qed.

Lemma strip_filter_commute (l : list string) :
  map PyStr.strip (filter (fun key => PyStr.truthy (PyStr.strip key)) l) =
    filter PyStr.truthy (map PyStr.strip l).
Proof.
  induction l as [| k l IH]; cbn; [reflexivity |].
  destruct (PyStr.truthy (PyStr.strip k)); cbn; rewrite IH; reflexivity.
Qed.

End KeyParsing.

(** X1. Every credential that the parser yields is non-empty, carries no
    white space at either end and holds no comma. *)
Theorem parsed_keys_are_clean (value key : string) :
  In key (parse_keys value) ->
  key <> EmptyString /\ PyStr.strip key = key /\ has_char "," key = false.
Proof.
  unfold parse_keys. intros H.
  apply in_map_iff in H. destruct H as (p & <- & H).
  apply filter_In in H. destruct H as [Hin Ht].
  split; [| split].
  - intros E. rewrite E in Ht. discriminate.
  - apply strip_idempotent.
  - unfold PyStr.strip.
    apply rstrip_keeps_clean, lstrip_keeps_clean.
    exact (split_pieces_clean _ _ _ Hin).
Qed.

(** X2. A value made of comma-free pieces joined by commas parses to the
    pieces in their order, each stripped of surrounding white space, the
    pieces that are blank left out. *)
Theorem parse_keys_of_joined (pieces : list string) :
  Forall (fun p => has_char "," p = false) pieces ->
  parse_keys (String.concat "," pieces) =
    filter PyStr.truthy (map PyStr.strip pieces).
Proof.
  intros Hall. unfold parse_keys. rewrite strip_filter_commute.
  destruct pieces as [| p pieces]; [reflexivity |].
  rewrite split_concat; [reflexivity | exact Hall | discriminate].
Qed.

(** ** The streaming test (line 65) *)

(** X8. A request is classified as streaming exactly when some stretch of
    its path spells [stream] in whatever mix of upper and lower case; nothing
    but the path enters the test. *)
Theorem is_streaming_iff (request : Request) :
  is_streaming request = true <->
  exists a s b,
    path request = (a ++ s ++ b)%string /\ PyStr.lower s = "stream"%string.
Proof.
  unfold is_streaming. rewrite contains_iff. split.
  - intros (a' & b' & H).
    apply lower_app_inv in H. destruct H as (a & rest & Hp & _ & Hrest).
    apply lower_app_inv in Hrest. destruct Hrest as (s & b & -> & Hs & _).
    exists a, s, b. split; assumption.
  - intros (a & s & b & Hp & Hs).
    exists (PyStr.lower a), (PyStr.lower b).
    rewrite Hp, !lower_app, Hs. reflexivity.
Qed.

(** ** The upstream calls of an invocation (lines 59 to 87) *)

Section Trace.

Variable request : Request.
Variable upstream : nat -> Outcome.

(** The calls that the loop adds are the calls of the credentials in list
    order, one each, for as far as the loop gets. *)
Lemma for_keys_trace (keys : list string) (l l' : Locals) (w w' : World)
    (f : Flow unit) :
  coherent request l -> sanitized request l ->
  for_keys request upstream keys (l, w) = (f, (l', w')) ->
  exists tail,
    calls w' = calls w ++ tail /\
    (List.length tail <= List.length keys)%nat /\
    (keys <> [] -> tail <> []) /\
    Forall2 (fun c key => exists b, c = attempt_call request key b)
      tail (firstn (List.length tail) keys).
Proof.
  revert l w. induction keys as [| key keys IH]; intros l w Hc Hsan H;
    cbn in H.
  - inversion H; subst. exists []. rewrite app_nil_r.
    repeat split; [cbn; lia | congruence | constructor].
  - unfold bind in H.
    destruct (attempt request upstream key (l, w)) as [fl [l1 w1]] eqn:E.
    destruct (attempt_shape _ _ _ _ _ _ _ _ Hc E) as (Hh & b & Hcalls).
    pose proof (keyed_sanitized request key l Hsan) as Hk.
    assert (Hcall : call_of request (keyed key l) b = attempt_call request key b).
    { unfold call_of, attempt_call. rewrite Hk. reflexivity. }
    rewrite Hcall in Hcalls.
    assert (Hone : exists tail,
               calls w1 = calls w ++ tail /\
               (List.length tail <= List.length (key :: keys))%nat /\
               (key :: keys <> [] -> tail <> []) /\
               Forall2 (fun c k => exists b0, c = attempt_call request k b0)
                 tail (firstn (List.length tail) (key :: keys))).
    { exists [attempt_call request key b].
      repeat split; [exact Hcalls | cbn; lia | discriminate |].
      cbn. constructor; [eexists; reflexivity | constructor]. }
    destruct fl as [[] | r | e].
    + destruct (attempt_retried _ _ _ _ _ _ _ _ Hc E) as (Hc1 & _).
      assert (Hsan1 : sanitized request l1)
        by (right; exists key; rewrite Hh; exact Hk).
      destruct (IH l1 w1 Hc1 Hsan1 H) as (tail & Ht & Hlen & _ & Hall).
      exists (attempt_call request key b :: tail).
      repeat split.
      * rewrite Ht, Hcalls, <- app_assoc. reflexivity.
      * cbn. lia.
      * discriminate.
      * cbn. constructor; [eexists; reflexivity | exact Hall].
    + inversion H; subst. exact Hone.
    + inversion H; subst. exact Hone.
Qed.

End Trace.

(** Through the handler: the calls of an invocation are the calls of the
    shuffled credentials, in order, one each, for as far as the loop gets. *)
Lemma handler_trace (request : Request) (environ : dict)
    (shuffle : list string -> list string) (upstream : nat -> Outcome) :
  let cs := calls (snd (proxy_to_gemini request environ shuffle upstream)) in
  let keys := shuffle (api_keys request environ) in
  (List.length cs <= List.length keys)%nat /\
  (api_keys request environ <> [] -> keys <> [] -> cs <> []) /\
  Forall2 (fun c key => exists b, c = attempt_call request key b)
    cs (firstn (List.length cs) keys).
Proof.
  cbn zeta. unfold proxy_to_gemini.
  destruct (api_keys request environ) as [| k ks] eqn:Ek.
  - cbn. repeat split; [lia | congruence | constructor].
  - rewrite failover_world.
    destruct (for_keys request upstream (shuffle (k :: ks))
                (initial_locals request, fresh_world)) as [f [l w]] eqn:E.
    destruct (for_keys_trace request upstream _ _ _ _ _ _
                (initial_coherent request) (or_introl eq_refl) E)
      as (tail & Ht & Hlen & Hne & Hall).
    cbn in Ht. subst tail. cbn [snd].
    repeat split; [exact Hlen | intros _; exact Hne | exact Hall].
Qed.


Lemma Forall2_left {A B : Type} (R : A -> B -> Prop) (P : A -> Prop)
    (xs : list A) (ys : list B) :
  (forall x y, R x y -> P x) -> Forall2 R xs ys -> Forall P xs.
Proof.
  intros HRP H. induction H as [| x y xs ys Hxy _ IH]; constructor;
    [exact (HRP x y Hxy) | exact IH].
Qed.

Lemma call_key_attempt_call (request : Request) (key : string) (b : Body) :
  call_key (attempt_call request key b) = Some key.
Proof. unfold call_key, attempt_call. cbn. rewrite get_set. reflexivity. Qed.

Lemma call_keys_of_trace (request : Request) (cs : list Call)
    (ks : list string) :
  Forall2 (fun c key => exists b, c = attempt_call request key b) cs ks ->
  map call_key cs = map Some ks.
Proof.
  intros H. induction H as [| c key cs ks (b & ->) _ IH]; cbn [map];
    [reflexivity |].
  rewrite call_key_attempt_call, IH. reflexivity.
Qed.

(** X3. The upstream calls of an invocation carry the shuffled credentials
    in list order, one credential per call, none skipped and none repeated;
    there are never more calls than credentials. *)
Theorem credentials_tried_in_order (request : Request) (environ : dict)
    (shuffle : list string -> list string) (upstream : nat -> Outcome) :
  let cs := calls (snd (proxy_to_gemini request environ shuffle upstream)) in
  let keys := shuffle (api_keys request environ) in
  map call_key cs = map Some (firstn (List.length cs) keys) /\
  (List.length cs <= List.length keys)%nat.
Proof.
  cbn zeta.
  destruct (handler_trace request environ shuffle upstream) as (Hlen & _ & Hall).
  split; [| exact Hlen].
  apply (call_keys_of_trace request). exact Hall.
Qed.

(** ** The headers of the upstream calls (lines 44 to 52 and 61) *)

Section OutboundHeaders.



End OutboundHeaders.


(** X10. Every inbound header whose name is not excluded reaches every
    upstream call under its own spelling with the value it has in the inbound
    request, the last one when the name is repeated; the only spelling that
    is overwritten is [User-Agent]. *)
Theorem calls_forward_other_headers (request : Request) (environ : dict)
    (shuffle : list string -> list string) (upstream : nat -> Outcome) :
  Forall
    (fun c =>
       forall k,
         k <> "User-Agent"%string ->
         PyStr.mem (PyStr.lower k) excluded_headers = false ->
         PyDict.get k (call_headers c) = PyDict.get k (rev (req_headers request)))
    (calls (snd (proxy_to_gemini request environ shuffle upstream))).
Proof.
  destruct (handler_trace request environ shuffle upstream) as (_ & _ & Hall).
  eapply Forall2_left; [| exact Hall].
  intros c key (b & ->) k Hk Hex. cbn [call_headers attempt_call].
  rewrite get_set.
  destruct (String.eqb k "x-goog-api-key") eqn:E.
  - apply String.eqb_eq in E. subst k. vm_compute in Hex. discriminate.
  - rewrite (sanitize_keeps_others _ _ Hk Hex). apply get_of_items.
Qed.

(** X11. In the header dict of every upstream call the key [User-Agent],
    spelled exactly so, holds the fixed literal, whatever the inbound request
    carries. *)
Theorem calls_carry_fixed_user_agent_key (request : Request) (environ : dict)
    (shuffle : list string -> list string) (upstream : nat -> Outcome) :
  Forall
    (fun c => PyDict.get "User-Agent" (call_headers c) = Some USER_AGENT)
    (calls (snd (proxy_to_gemini request environ shuffle upstream))).
Proof.
  destruct (handler_trace request environ shuffle upstream) as (_ & _ & Hall).
  eapply Forall2_left; [| exact Hall].
  intros c key (b & ->). cbn [call_headers attempt_call].
  rewrite get_set. cbn. apply sanitize_sets_user_agent.
Qed.

(** ** Streaming paths (lines 67 to 79) *)

Section Streamed.

Variable request : Request.
Variable upstream : nat -> Outcome.
Hypothesis streamed : is_streaming request = true.

(** The world after a streamed attempt, however the attempt ends. *)
Lemma attempt_streamed_world (key : string) (l : Locals) (w : World) :
  response l = None ->
  snd (snd (attempt request upstream key (l, w))) =
    issued (call_of request (keyed key l) Lazy) w.
Proof.
  intros Hr. rewrite (attempt_streamed request upstream key l w streamed Hr).
  cbn zeta.
  destruct (upstream (List.length (calls w))) as [d | r | x];
    [reflexivity | | reflexivity].
  destruct (status_code r =? 200); reflexivity.
Qed.

(** The loop on a streaming path never asks for the body and hands the lazy
    stream to every call. *)
Lemma for_keys_streamed_world (keys : list string) (l : Locals) (w : World) :
  response l = None ->
  let w' := snd (snd (for_keys request upstream keys (l, w))) in
  body_cache w' = body_cache w /\ source_reads w' = source_reads w /\
  exists tail,
    calls w' = calls w ++ tail /\ Forall (fun c => call_body c = Lazy) tail.
Proof.
  revert l w. induction keys as [| key keys IH]; intros l w Hr; cbn zeta.
  - cbn. repeat split. exists []. rewrite app_nil_r. split; constructor.
  - pose proof (attempt_streamed_world key l w Hr) as Hw.
    cbn [for_keys]. unfold bind.
    destruct (attempt request upstream key (l, w)) as [fl [l1 w1]] eqn:E.
    cbn [snd] in Hw. subst w1.
    assert (Hone : exists tail,
               calls (issued (call_of request (keyed key l) Lazy) w) =
                 calls w ++ tail /\
               Forall (fun c => call_body c = Lazy) tail).
    { eexists. split; [reflexivity |]. constructor; [reflexivity | constructor]. }
    destruct fl as [[] | r | e]; cbn [snd]; try (repeat split; exact Hone).
    assert (Hc : coherent request l) by (intros _; exact Hr).
    destruct (attempt_retried _ _ _ _ _ _ _ _ Hc E) as (Hc1 & _).
    destruct (IH l1 (issued (call_of request (keyed key l) Lazy) w)
                (Hc1 streamed)) as (Hb & Hs & tail & Ht & Hall).
    repeat split; [exact Hb | exact Hs |].
    exists (call_of request (keyed key l) Lazy :: tail).
    split.
    + rewrite Ht. cbn [calls issued]. rewrite <- app_assoc. reflexivity.
    + constructor; [reflexivity | exact Hall].
Qed.

(** A streaming reply is built from the response to the last call made,
    and that response has status 200. *)
Lemma for_keys_streaming_reply (keys : list string) (l l' : Locals)
    (w w' : World) (body : ByteIterator) (s : Z) (h : dict)
    (mt : option string) :
  for_keys request upstream keys (l, w)
    = (Return (StreamingResponse body s h mt), (l', w')) ->
  response l = None ->
  exists i r,
    (i < List.length keys)%nat /\
    List.length (calls w') = S (List.length (calls w) + i) /\
    upstream (List.length (calls w) + i) = Responds r /\
    status_code r = 200 /\ s = 200 /\ body = aiter_bytes r /\
    h = of_items (resp_headers r) /\ mt = httpx_get "content-type" r.
Proof.
  revert l w. induction keys as [| key keys IH]; intros l w H Hr; cbn in H;
    [discriminate |].
  unfold bind in H.
  destruct (attempt request upstream key (l, w)) as [fl [l1 w1]] eqn:E.
  assert (Hc : coherent request l) by (intros _; exact Hr).
  pose proof (attempt_calls _ _ _ _ _ _ E) as Hn. cbn in Hn.
  destruct fl as [[] | r0 | e]; [| | discriminate].
  - destruct (attempt_retried _ _ _ _ _ _ _ _ Hc E) as (Hc1 & _).
    destruct (IH l1 w1 H (Hc1 streamed))
      as (i & r & Hi & Hlen & Hup & Hst & Hs & Hb & Hh & Hm).
    exists (S i), r. rewrite Hn in Hup, Hlen.
    replace (List.length (calls w) + S i)%nat
      with (S (List.length (calls w)) + i)%nat by lia.
    repeat split; try assumption. cbn. lia.
  - inversion H; subst. clear H.
    rewrite (attempt_streamed request upstream key l w streamed Hr) in E.
    cbn zeta in E.
    destruct (upstream (List.length (calls w))) as [d | r | x] eqn:Hup;
      [discriminate | | discriminate].
    destruct (status_code r =? 200) eqn:Hst; [| discriminate].
    inversion E; subst.
    exists 0%nat, r. rewrite Nat.add_0_r.
    repeat split; [cbn; lia | exact Hn | exact Hup | lia | lia].
Qed.

End Streamed.

(** On a buffered path the loop never returns a streaming reply. *)
Lemma buffered_for_keys_no_stream (request : Request) (upstream : nat -> Outcome)
    (keys : list string) (m m' : Machine) (body : ByteIterator) (s : Z)
    (h : dict) (mt : option string) :
  is_streaming request = false ->
  for_keys request upstream keys m <> (Return (StreamingResponse body s h mt), m').
Proof.
  intros Hs. revert m. induction keys as [| key keys IH]; intros [l w]; cbn.
  - discriminate.
  - unfold bind. rewrite (attempt_buffered request upstream key l w Hs). cbn zeta.
    destruct (upstream (List.length (calls w))) as [d | r | x].
    + apply IH.
    + destruct (status_code r <? 400); [discriminate |].
      destruct ((400 <=? status_code r) && (status_code r <? 500));
        [apply IH | discriminate].
    + discriminate.
Qed.


(** X6. Whenever the handler returns a streaming reply, the request is on a
    streaming path and the reply is built on the response to the last
    upstream call made, whose status is exactly 200: its unread byte
    iterator, its headers and its content type. *)
Theorem streaming_reply_only_for_200 (request : Request) (environ : dict)
    (shuffle : list string -> list string) (upstream : nat -> Outcome)
    (body : ByteIterator) (s : Z) (h : dict) (mt : option string) :
  fst (proxy_to_gemini request environ shuffle upstream) =
    Replied (StreamingResponse body s h mt) ->
  is_streaming request = true /\ s = 200 /\
  exists i r,
    List.length (calls (snd (proxy_to_gemini request environ shuffle upstream)))
      = S i /\
    upstream i = Responds r /\ status_code r = 200 /\
    body = aiter_bytes r /\ h = of_items (resp_headers r) /\
    mt = httpx_get "content-type" r.
Proof.
  unfold proxy_to_gemini.
  destruct (api_keys request environ) as [| k ks]; [discriminate |].
  unfold failover.
  destruct (for_keys request upstream (shuffle (k :: ks))
              (initial_locals request, fresh_world))
    as [[[] | r0 | e] [l w]] eqn:E; cbn [fst snd]; intros H;
    [discriminate | | discriminate].
  inversion H; subst. clear H.
  destruct (is_streaming request) eqn:Hs.
  - destruct (for_keys_streaming_reply request upstream Hs _ _ _ _ _ _ _ _ _ E
                eq_refl) as (i & r & Hi & Hlen & Hup & Hst & H200 & Hb & Hh & Hm).
    cbn in Hup, Hlen. split; [reflexivity |]. split; [exact H200 |].
    exists i, r. repeat split; assumption.
  - exfalso. exact (buffered_for_keys_no_stream _ _ _ _ _ _ _ _ _ Hs E).
Qed.

(** X7. On a streaming path the handler never calls [request.body()]: the
    request's body cache stays unset and every upstream call is handed the
    lazy [request.stream()] iterator instead of buffered bytes. *)
Theorem streamed_requests_never_buffer (request : Request) (environ : dict)
    (shuffle : list string -> list string) (upstream : nat -> Outcome) :
  is_streaming request = true ->
  let w := snd (proxy_to_gemini request environ shuffle upstream) in
  body_cache w = None /\
  Forall (fun c => call_body c = Lazy) (calls w).
Proof.
  intros Hs. cbn zeta. unfold proxy_to_gemini.
  destruct (api_keys request environ) as [| k ks].
  - cbn. split; [reflexivity | constructor].
  - rewrite failover_world.
    destruct (for_keys_streamed_world request upstream Hs (shuffle (k :: ks))
                (initial_locals request) fresh_world eq_refl)
      as (Hb & _ & tail & Ht & Hall).
    cbn in Hb, Ht. rewrite Hb, Ht. split; [reflexivity | exact Hall].
Qed.

(** ** How far the loop gets (lines 59 to 115) *)

(** X15. When every outcome that the credentials meet is a retried one, a
    network failure or a 4xx on a buffered path, each credential is tried
    exactly once and the reply is the failure recorded for the last one, with
    no headers and the JSON media type. *)
Theorem all_retried_tries_every_credential (request : Request) (environ : dict)
    (shuffle : list string -> list string) (upstream : nat -> Outcome)
    (keys : list string) (key : string) :
  api_keys request environ <> [] ->
  shuffle (api_keys request environ) = keys ++ [key] ->
  (forall i, (i <= List.length keys)%nat ->
     retried (is_streaming request) (upstream i) = true) ->
  List.length (calls (snd (proxy_to_gemini request environ shuffle upstream)))
    = S (List.length keys) /\
  fst (proxy_to_gemini request environ shuffle upstream) =
    Replied
      (Response (Some (snd (recorded_failure (upstream (List.length keys)))))
         (fst (recorded_failure (upstream (List.length keys)))) []
         (Some "application/json"%string)).
Proof.
  intros Hne Hsh Hall.
  destruct (proj2 (for_keys_exhausts_iff request upstream (keys ++ [key])
                     (initial_locals request) fresh_world
                     (initial_coherent request))) as [m Hrun].
  { intros i Hi. rewrite length_app in Hi. cbn in Hi |- *. apply Hall. lia. }
  pose proof (for_keys_exhausted_calls _ _ _ _ _ _ Hrun) as Hn.
  rewrite length_app in Hn. cbn in Hn.
  rewrite handler_runs_failover by exact Hne.
  rewrite Hsh, (exhaustion_reply _ _ _ _ _ _ Hrun). cbn [fst snd].
  split; [lia | reflexivity].
Qed.

(** X16. The loop stops at the first outcome that is not a retried one:
    when the outcomes before position [k] are retried and the one at [k] is
    not, exactly [k + 1] upstream calls are issued, whatever follows in the
    credential list. *)
Theorem loop_stops_at_first_unretried (request : Request) (environ : dict)
    (shuffle : list string -> list string) (upstream : nat -> Outcome)
    (pre post : list string) (key : string) :
  api_keys request environ <> [] ->
  shuffle (api_keys request environ) = pre ++ key :: post ->
  (forall i, (i < List.length pre)%nat ->
     retried (is_streaming request) (upstream i) = true) ->
  retried (is_streaming request) (upstream (List.length pre)) = false ->
  List.length (calls (snd (proxy_to_gemini request environ shuffle upstream)))
    = S (List.length pre).
Proof.
  intros Hne Hsh Hpre Hk.
  destruct (proj2 (for_keys_exhausts_iff request upstream pre
                     (initial_locals request) fresh_world
                     (initial_coherent request))) as [[l w] Hrun].
  { intros i Hi. cbn. apply Hpre. exact Hi. }
  pose proof (for_keys_exhausted_calls _ _ _ _ _ _ Hrun) as Hn. cbn in Hn.
  pose proof (for_keys_coherent _ _ _ _ _ _ _ _ (initial_coherent request) Hrun)
    as Hc.
  rewrite handler_runs_failover by exact Hne.
  rewrite Hsh, failover_world, for_keys_app, Hrun.
  cbn [for_keys]. unfold bind.
  destruct (attempt request upstream key (l, w)) as [fl [l1 w1]] eqn:E.
  pose proof (attempt_calls _ _ _ _ _ _ E) as Hn1. cbn in Hn1.
  destruct fl as [[] | r | e]; cbn [snd]; try lia.
  destruct (attempt_retried _ _ _ _ _ _ _ _ Hc E) as (_ & Hr & _).
  rewrite Hn, Hk in Hr. discriminate.
Qed.

(** ** The environment as credential source (lines 26 to 29) *)

(** X17. When the credential header yields nothing and the environment
    variable yields a list, the handler runs the failover over the shuffled
    environment list: the upstream calls carry its credentials in order. *)
Theorem environment_keys_are_the_fallback (request : Request) (environ : dict)
    (shuffle : list string -> list string) (upstream : nat -> Outcome) :
  header_keys request = [] ->
  env_keys environ <> [] ->
  proxy_to_gemini request environ shuffle upstream =
    failover request upstream (shuffle (env_keys environ)) fresh_world /\
  let cs := calls (snd (proxy_to_gemini request environ shuffle upstream)) in
  map call_key cs = map Some (firstn (List.length cs) (shuffle (env_keys environ))).
Proof.
  intros Hh He.
  assert (Hk : api_keys request environ = env_keys environ)
    by (unfold api_keys; rewrite Hh; reflexivity).
  split.
  - rewrite handler_runs_failover by (rewrite Hk; exact He).
    rewrite Hk. reflexivity.
  - cbn zeta.
    destruct (handler_trace request environ shuffle upstream) as (_ & _ & Hall).
    rewrite Hk in Hall. exact (call_keys_of_trace request _ _ Hall).
Qed.

(** ** The headers of a buffered success (line 91) *)

(** X14. The header dict built for a buffered success holds no value under
    [content-encoding] or [transfer-encoding], however capitalised, and under
    every other name what the upstream response holds under it. *)
Theorem success_headers_drop_encodings_only (r : HttpxResponse) (name : string) :
  (PyStr.mem (PyStr.lower name) ["content-encoding"; "transfer-encoding"]%string
     = true ->
   http_values name (response_headers r) = []) /\
  (PyStr.mem (PyStr.lower name) ["content-encoding"; "transfer-encoding"]%string
     = false ->
   PyDict.get name (response_headers r) = PyDict.get name (of_items (resp_headers r))).
Proof.
  split; [apply response_headers_filtered | apply response_headers_pass].
Qed.

(** ** The status of the reply *)

Section ReplyStatus.

Variable request : Request.
Variable upstream : nat -> Outcome.



End ReplyStatus.


(** ** Instances of the further properties *)

Lemma parsed_keys_are_clean_witness :
  In "k2"%string (parse_keys " k1 ,, k2 ") /\
  ("k2"%string <> EmptyString /\ PyStr.strip "k2" = "k2"%string /\
   has_char "," "k2" = false).
Proof.
  assert (Hin : In "k2"%string (parse_keys " k1 ,, k2 "))
    by (cbn; right; left; reflexivity).
  exact (conj Hin (parsed_keys_are_clean " k1 ,, k2 " "k2" Hin)).
Defined.

Lemma parse_keys_of_joined_witness :
  Forall (fun p => has_char "," p = false) [" k1"; "  "; "k2 "]%string /\
  parse_keys " k1,  ,k2 " = ["k1"; "k2"]%string.
Proof.
  assert (HF : Forall (fun p => has_char "," p = false)
                 [" k1"; "  "; "k2 "]%string)
    by (repeat constructor).
  exact (conj HF (parse_keys_of_joined [" k1"; "  "; "k2 "]%string HF)).
Defined.

Lemma is_streaming_iff_witness :
  path shouting = ("V1BETA/MODELS/GEMINI-PRO:" ++ "STREAM" ++ "GENERATECONTENT")%string /\
  is_streaming shouting = true.
Proof.
  split; [reflexivity |].
  apply (proj2 (is_streaming_iff shouting)).
  exists "V1BETA/MODELS/GEMINI-PRO:"%string, "STREAM"%string,
    "GENERATECONTENT"%string.
  split; reflexivity.
Defined.


Lemma calls_forward_other_headers_witness :
  let upstream := script [Responds (failing 404 "first")] in
  let c := attempt_call generate "k1" (Buffered "{}") in
  In c (calls (snd (proxy_to_gemini generate [] same upstream))) /\
  PyDict.get "content-type" (call_headers c) = Some "application/json"%string /\
  PyDict.get "user-agent" (call_headers c) = Some "curl/8.0"%string.
Proof.
  cbn zeta.
  assert (Hin : In (attempt_call generate "k1" (Buffered "{}"))
                  (calls (snd (proxy_to_gemini generate [] same
                                 (script [Responds (failing 404 "first")])))))
    by (left; reflexivity).
  pose proof (proj1 (Forall_forall _ _)
                (calls_forward_other_headers generate [] same
                   (script [Responds (failing 404 "first")])) _ Hin) as H.
  split; [exact Hin |]. split.
  - refine (H "content-type"%string _ eq_refl). discriminate.
  - refine (H "user-agent"%string _ eq_refl). discriminate.
Defined.


Lemma streaming_reply_only_for_200_witness :
  let upstream := script [Responds (ok "hi")] in
  fst (proxy_to_gemini stream_generate [] same upstream) =
    Replied (StreamingResponse (aiter_bytes (ok "hi")) 200
               [("content-type", "application/json")]%string
               (Some "application/json"%string)) /\
  is_streaming stream_generate = true.
Proof.
  cbn zeta.
  assert (H : fst (proxy_to_gemini stream_generate [] same
                     (script [Responds (ok "hi")])) =
              Replied (StreamingResponse (aiter_bytes (ok "hi")) 200
                         [("content-type", "application/json")]%string
                         (Some "application/json"%string)))
    by (vm_compute; reflexivity).
  split; [exact H |].
  exact (proj1 (streaming_reply_only_for_200 _ _ _ _ _ _ _ _ H)).
Defined.

Lemma streamed_requests_never_buffer_witness :
  let upstream := script [NetworkFailure "connect timeout"; Responds (ok "hi")] in
  is_streaming stream_generate = true /\
  body_cache (snd (proxy_to_gemini stream_generate [] same upstream)) = None /\
  map call_body (calls (snd (proxy_to_gemini stream_generate [] same upstream)))
    = [Lazy; Lazy].
Proof.
  cbn zeta.
  assert (Hs : is_streaming stream_generate = true) by reflexivity.
  destruct (streamed_requests_never_buffer stream_generate [] same
              (script [NetworkFailure "connect timeout"; Responds (ok "hi")]) Hs)
    as (Hb & _).
  split; [exact Hs |]. split; [exact Hb | reflexivity].
Defined.


Lemma streamed_non_200_escapes_witness :
  let upstream := script [NetworkFailure "reset"; Responds (failing 418 "teapot")] in
  is_streaming stream_generate = true /\
  fst (proxy_to_gemini stream_generate [] same upstream) =
    Escaped (UnboundLocalError "response").
Proof.
  cbn zeta.
  assert (Hs : is_streaming stream_generate = true) by reflexivity.
  split; [exact Hs |].
  refine (streamed_non_200_escapes stream_generate [] same
            (script [NetworkFailure "reset"; Responds (failing 418 "teapot")])
            ["k1"%string] [] "k2" (failing 418 "teapot")
            (snd (for_keys stream_generate
                    (script [NetworkFailure "reset"; Responds (failing 418 "teapot")])
                    ["k1"%string] (initial_locals stream_generate, fresh_world)))
            tt Hs _ _ _ _ _).
  - vm_compute. discriminate.
  - reflexivity.
  - vm_compute. reflexivity.
  - reflexivity.
  - cbn. lia.
Defined.

Lemma success_headers_drop_encodings_only_witness :
  http_values "Transfer-Encoding" (response_headers informational) = [] /\
  PyDict.get "x-trace" (response_headers informational) = Some "t1"%string.
Proof.
  split.
  - exact (proj1 (success_headers_drop_encodings_only informational
                    "Transfer-Encoding") eq_refl).
  - exact (proj2 (success_headers_drop_encodings_only informational "x-trace")
             eq_refl).
Defined.

Lemma all_retried_tries_every_credential_witness :
  let upstream := script [] in
  List.length (calls (snd (proxy_to_gemini stream_generate [] same upstream)))
    = 2%nat /\
  fst (proxy_to_gemini stream_generate [] same upstream) =
    Replied (Response (Some (fetch_error_body "timed out")) 502 []
               (Some "application/json"%string)).
Proof.
  cbn zeta.
  refine (all_retried_tries_every_credential stream_generate [] same (script [])
            ["k1"%string] "k2" _ _ _).
  - vm_compute. discriminate.
  - reflexivity.
  - intros i _. destruct i as [| [| i]]; reflexivity.
Defined.

Lemma loop_stops_at_first_unretried_witness :
  let upstream := script [NetworkFailure "reset"; Responds (failing 500 "boom")] in
  same (api_keys anonymous three_keys) = ["e1"] ++ "e2" :: ["e3"] /\
  List.length (calls (snd (proxy_to_gemini anonymous three_keys same upstream)))
    = 2%nat.
Proof.
  cbn zeta.
  assert (Hsh : same (api_keys anonymous three_keys) =
                ["e1"] ++ "e2" :: ["e3"]) by reflexivity.
  split; [exact Hsh |].
  refine (loop_stops_at_first_unretried anonymous three_keys same
            (script [NetworkFailure "reset"; Responds (failing 500 "boom")])
            ["e1"%string] ["e3"%string] "e2" _ Hsh _ _).
  - vm_compute. discriminate.
  - intros i Hi. destruct i as [| i]; [reflexivity | cbn in Hi; lia].
  - reflexivity.
Defined.

Lemma environment_keys_are_the_fallback_witness :
  let upstream := script [] in
  header_keys anonymous = [] /\
  env_keys three_keys = ["e1"; "e2"; "e3"]%string /\
  map call_key (calls (snd (proxy_to_gemini anonymous three_keys same upstream))) =
    [Some "e1"; Some "e2"; Some "e3"]%string.
Proof.
  cbn zeta.
  assert (Hh : header_keys anonymous = []) by reflexivity.
  assert (He : env_keys three_keys <> []) by (vm_compute; discriminate).
  destruct (environment_keys_are_the_fallback anonymous three_keys same
              (script []) Hh He) as [_ H].
  split; [exact Hh |]. split; [reflexivity |]. exact H.
Defined.

